(** * Flood-hazard processing (glanvup/floodzard.py): a shallow embedding

    The class [FloodProcess] clips a hazard raster to every administrative
    region ([process_flood_tiff]), traces each clipped raster into polygons
    ([process_tif]), concatenates the traced shapefiles ([pop_flood]) and
    overlays them with the population joined to the boundaries
    ([flood_pop_overlay]).

    The program is written against rasterio, geopandas and pandas.  What the
    Python source itself does (loops, filters, indexing, path building,
    exception flow) is embedded as executable definitions; calls to [print]
    have no counterpart.  The geometry engine (raster masking, polygon
    tracing, overlay, shapefile encoding) is a parameter of the program; what
    is relied upon of it is stated as a contract where a theorem needs it,
    and an engine for rectangles on whole-number coordinates runs the
    examples. *)

From Stdlib Require Import ZArith List String Ascii Bool Lia.
From stdpp Require Import base gmap strings list pretty.

Local Open Scope string_scope.
Local Open Scope Z_scope.

(** ** Python exceptions and the effect monad *)

Module Py.

(** An exception is the name of its class and its argument. *)
Record exn := Exn { exn_class : string; exn_arg : string }.

Inductive result (A : Type) : Type :=
| Ok (a : A)
| Raise (e : exn).
Arguments Ok {A} a.
Arguments Raise {A} e.

(** A computation over a store [S] that may raise: the store survives the
    exception, as the files written before a Python exception do. *)
Definition M (S A : Type) : Type := S -> S * result A.

Definition ret {S A} (a : A) : M S A := fun s => (s, Ok a).
Definition raise {S A} (e : exn) : M S A := fun s => (s, Raise e).
Definition bind {S A B} (m : M S A) (k : A -> M S B) : M S B :=
  fun s => match m s with
           | (s', Ok a) => k a s'
           | (s', Raise e) => (s', Raise e)
           end.
Definition get {S} : M S S := fun s => (s, Ok s).
Definition put {S} (s : S) : M S unit := fun _ => (s, Ok tt).
Definition lift {S A} (r : result A) : M S A := fun s => (s, r).

(** [try: body / except: pass] *)
Definition try_except_pass {S} (body : M S unit) : M S unit :=
  fun s => match body s with
           | (s', Ok _) => (s', Ok tt)
           | (s', Raise _) => (s', Ok tt)
           end.

(** [for x in xs: body x] *)
Fixpoint for_each {S A} (xs : list A) (body : A -> M S unit) : M S unit :=
  match xs with
  | [] => ret tt
  | x :: rest => bind (body x) (fun _ => for_each rest body)
  end.

Definition is_ok {A} (r : result A) : bool :=
  match r with Ok _ => true | Raise _ => false end.

End Py.

Import Py.

Declare Scope py_scope.
Delimit Scope py_scope with py.
Notation "x <- m ;; k" := (Py.bind m (fun x => k))
  (at level 100, m at next level, right associativity) : py_scope.
Notation "m ;;; k" := (Py.bind m (fun _ => k))
  (at level 100, right associativity) : py_scope.

(** ** Strings and paths *)

(** [s.endswith(suffix)] *)
Definition endswith (s suffix : string) : bool :=
  let n := String.length s in
  let m := String.length suffix in
  (m <=? n)%nat && String.eqb (substring (n - m) m s) suffix.

(** [s.startswith(p)] *)
Definition startswith (s p : string) : bool := String.prefix p s.

(** Whether a name is a plain file name, without path separator. *)
Fixpoint plain_name (s : string) : bool :=
  match s with
  | EmptyString => true
  | String ch rest => negb (Ascii.eqb ch "/"%char) && plain_name rest
  end.

Fixpoint all_dots (s : string) : bool :=
  match s with
  | EmptyString => true
  | String ch rest => Ascii.eqb ch "."%char && all_dots rest
  end.

(** [os.path.splitext(name)[0]] for a name that ends in a four-character
    extension such as [.tif]: the extension is cut at the last dot, unless
    only dots precede it, in which case the name has no extension. *)
Definition splitext_root (name : string) : string :=
  let stem := substring 0 (String.length name - 4) name in
  if all_dots stem then name else stem.

(** [os.path.join(a, b)] (posixpath) *)
Definition path_join (a b : string) : string :=
  if startswith b "/" then b
  else if String.eqb a "" || endswith a "/" then a ++ b
  else a ++ "/" ++ b.

Definition path_join_all (parts : list string) : string :=
  match parts with
  | [] => ""
  | p :: rest => fold_left path_join rest p
  end.

(** ** Numbers and the affine transform *)

(** Coordinates are Python floats; the development is generic in the
    arithmetic, so that nothing depends on rounding. *)
Class Num (T : Type) := {
  nadd : T -> T -> T;
  nmul : T -> T -> T;
  (** [float(z)]: pixel corners are whole numbers *)
  nofZ : Z -> T;
  (** [x <= y] *)
  nleb : T -> T -> bool
}.

#[export] Instance Num_Z : Num Z :=
  {| nadd := Z.add; nmul := Z.mul; nofZ := fun z => z; nleb := Z.leb |}.

Section Affine.
Context {T : Type} `{Num T}.

(** [affine.Affine(a, b, c, d, e, f)] *)
Record Affine := mkAffine { sa : T; sb : T; sc : T; sd : T; se : T; sf : T }.

(** [Affine.__mul__] on a point:
    [(vx * sa + vy * sb + sc, vx * sd + vy * se + sf)] *)
Definition affine_mul (t : Affine) (p : T * T) : T * T :=
  let '(vx, vy) := p in
  (nadd (nadd (nmul vx (sa t)) (nmul vy (sb t))) (sc t),
   nadd (nadd (nmul vx (sd t)) (nmul vy (se t))) (sf t)).
End Affine.
Arguments Affine T : clear implicits.

(** ** Data: GeoJSON geometries, data frames, rasters, the file system *)

(** A ring of a polygon: its vertices, the first repeated at the end. *)
Abbreviation ring T := (list (T * T)) (only parsing).

Section Data.
Context {T : Type}.

(** A GeoJSON geometry dict: ['type'] and ['coordinates'] (a list of rings,
    the exterior ring first). *)
Record geojson := mkGeo { gj_type : string; gj_coordinates : list (ring T) }.

(** A cell of a data frame; a missing value (NaN / None) is [None]. *)
Inductive val := VStr (s : string) | VInt (z : Z).

#[export] Instance val_eq_dec : EqDecision val.
Proof. solve_decision. Defined.

(** ['{}'.format(v)] for a cell of a frame from [pd.read_csv], where a
    missing value is NaN.  A number is a whole number of an int64 column (a
    numeric column with a missing value is held as floats, which [val] does
    not describe). *)
Definition str (v : option val) : string :=
  match v with
  | Some (VStr s) => s
  | Some (VInt z) => pretty z
  | None => "nan"
  end.

(** The same for a cell of a row from [gpd.read_file], where the missing
    value of a field is [None]. *)
Definition str_field (v : option val) : string :=
  match v with
  | None => "None"
  | _ => str v
  end.

(** pandas.DataFrame: column labels and rows (label to cell). *)
Record df := mkDf { df_columns : list string; df_rows : list (gmap string val) }.

(** A row of a GeoDataFrame: attribute cells and the geometry. *)
Record grow := mkRow { attrs : gmap string val; geometry : geojson }.

(** geopandas.GeoDataFrame; [gdf_geom] tells whether a geometry column is
    set ([gpd.GeoDataFrame()] has none). *)
Record gdf := mkGdf { gdf_geom : bool; gdf_columns : list string; gdf_rows : list grow }.

(** [row[label]] on a row of a frame with the given columns *)
Definition getitem (columns : list string) (row : gmap string val) (label : string)
  : result (option val) :=
  if bool_decide (label ∈ columns) then Ok (row !! label)
  else Raise (Exn "KeyError" label).

(** numpy array of shape (count, height, width) *)
Record image := mkImage {
  im_count : nat; im_height : nat; im_width : nat;
  im_data : list (list (list Z))
}.

(** An open rasterio dataset: its profile and its bands. *)
Record dataset := mkDataset {
  ds_driver : string;
  ds_nodata : option Z;
  ds_crs : option string;
  ds_transform : Affine T;
  ds_height : nat;
  ds_width : nat;
  ds_count : nat;
  ds_bands : list (list (list Z))
}.

Inductive file :=
| Tif (d : dataset)
| Shp (g : gdf)
| Csv (d : df)
| Sidecar.

(** The file system: file contents by path, and for every existing folder
    the names [os.listdir] gives, in the order it gives them. *)
Record fs := mkFs {
  files : gmap string file;
  listing : gmap string (list string)
}.

(** [os.path.exists(folder)] *)
Definition exists_dir (folder : string) (s : fs) : bool :=
  bool_decide (is_Some (listing s !! folder)).

(** [os.makedirs(folder)] / [os.mkdir(folder)] on a folder that does not
    exist (no listing of a parent folder is read by this program). *)
Definition mkdir (folder : string) : M fs unit :=
  fun s => (mkFs (files s) (<[folder := []]> (listing s)), Ok tt).

(** [os.listdir(folder)] *)
Definition listdir (folder : string) : M fs (list string) :=
  fun s => match listing s !! folder with
           | Some names => (s, Ok names)
           | None => (s, Raise (Exn "FileNotFoundError" folder))
           end.

(** Creating or overwriting [folder/name]. *)
Definition write_file (folder name : string) (f : file) : M fs unit :=
  fun s =>
    let names := default [] (listing s !! folder) in
    let names' := if bool_decide (name ∈ names) then names else (names ++ [name])%list in
    (mkFs (<[path_join folder name := f]> (files s))
          (<[folder := names']> (listing s)), Ok tt).

(** [rasterio.open(path, mode)] on an existing dataset, for the modes
    ['r'] and ['r+'].  What cannot be opened raises [RasterioIOError] when
    reading; with ['r+'] the driver of the file is looked up first, and that
    raises [TypeError]. *)
Definition rasterio_open (path mode : string) : M fs dataset :=
  fun s => match files s !! path with
           | Some (Tif d) => (s, Ok d)
           | _ => (s, Raise (Exn (if String.eqb mode "r+" then "TypeError"
                                  else "RasterioIOError") path))
           end.

(** [gpd.read_file(path)] *)
Definition read_file (path : string) : M fs gdf :=
  fun s => match files s !! path with
           | Some (Shp g) => (s, Ok g)
           | _ => (s, Raise (Exn "DriverError" path))
           end.

(** [pd.read_csv(path)] *)
Definition read_csv (path : string) : M fs df :=
  fun s => match files s !! path with
           | Some (Csv d) => (s, Ok d)
           | _ => (s, Raise (Exn "FileNotFoundError" path))
           end.

(** [src.read(1)]: the first band *)
Definition read_band1 (src : dataset) : result (list (list Z)) :=
  match ds_bands src with
  | band :: _ => Ok band
  | [] => Raise (Exn "IndexError" "band index 1 out of range")
  end.

End Data.
Arguments geojson T : clear implicits.
Arguments grow T : clear implicits.
Arguments gdf T : clear implicits.
Arguments dataset T : clear implicits.
Arguments file T : clear implicits.
Arguments fs T : clear implicits.

(** ** The program *)

(** The attributes set by [FloodProcess.__init__]. *)
Record FloodProcess := mkSelf {
  csv_filename : string;
  country_iso3 : string;
  flood_tiff : string;
  pop_csv : string
}.

(** [data/processed/<iso3>/hazards/inunriver/<leaf>] *)
Definition hazard_folder (self : FloodProcess) (leaf : string) : string :=
  path_join_all ["data"; "processed"; country_iso3 self; "hazards"; "inunriver"; leaf].

(** [data/processed/<iso3>/regions] *)
Definition regions_folder (iso3 : string) : string :=
  path_join_all ["data"; "processed"; iso3; "regions"].

Section Program.
Context {T : Type} `{Num T}.

(** *** What the traced features and the overlay rows are made of *)

(** A dict appended to [output] in [process_tif]. *)
Record feature := mkFeature {
  f_type : string;
  f_geometry : geojson T;
  f_value : Z
}.

(** A row of [country_boundaries.merge(data, ...)]: the boundary row and
    the population row matched with it.  pandas lays the pair out as one
    row (the key once, clashing labels suffixed [_x] and [_y]). *)
Record merged_row := mkMerged {
  m_boundary : grow T;
  m_population : gmap string val
}.

Record merged := mkMergedFrame { mg_geom : bool; mg_rows : list merged_row }.

(** A row of the overlay: the rows of the two inputs it comes from and
    the geometry of their intersection. *)
Record overlay_row := mkOverlay {
  o_joined : merged_row;
  o_hazard : grow T;
  o_geometry : geojson T
}.

(** *** The geometry engine *)

(** [rasterio.mask.mask(dataset, shapes, crop = crop)] *)
Variable mask : dataset T -> list (geojson T) -> bool -> result (image * Affine T).
(** [rasterio.features.shapes(array)]: the (geometry, value) pairs it yields *)
Variable shapes : list (list Z) -> list (geojson T * Z).
(** Whether the shapefile driver takes the frame in [GeoDataFrame.to_file] *)
Variable to_file_check : gdf T -> result unit.
(** [gpd.overlay(df1, df2, how = 'intersection')] *)
Variable overlay : merged -> gdf T -> result (list overlay_row).

(** *** process_flood_tiff *)

(** [hazard.nodata = 255] on a dataset opened with ['r+']: the file itself
    is updated. *)
Definition set_nodata (path : string) (hazard : dataset T) (nodata : Z)
  : M (fs T) (dataset T) :=
  let hazard' :=
    mkDataset (ds_driver hazard) (Some nodata) (ds_crs hazard) (ds_transform hazard)
              (ds_height hazard) (ds_width hazard) (ds_count hazard) (ds_bands hazard) in
  fun s => (mkFs (<[path := Tif hazard']> (files s)) (listing s), Ok hazard').

(** [hazard.crs.from_epsg(4326)]: builds a CRS and drops it; an attribute
    access on [None] when the file carries no CRS. *)
Definition crs_from_epsg (hazard : dataset T) : result unit :=
  match ds_crs hazard with
  | Some _ => Ok tt
  | None => Raise (Exn "AttributeError" "'NoneType' object has no attribute 'from_epsg'")
  end.

(** [if not os.path.exists(folder): os.makedirs(folder)] *)
Definition ensure_dir (folder : string) : M (fs T) unit :=
  (s <- get ;; if exists_dir folder s then ret tt else mkdir folder)%py.

(** The body of the loop over the regions (lines 62-106). *)
Definition clip_region (self : FloodProcess) (columns : list string)
    (gid_level : string) (region : grow T) : M (fs T) unit :=
  (gid_id <- lift (getitem columns (attrs region) gid_level) ;;
   let filename := flood_tiff self in
   let path_hazard := path_join_all ["data"; "raw"; "flood_hazard"; filename] in
   hazard <- rasterio_open path_hazard "r+" ;;
   hazard <- set_nodata path_hazard hazard 255 ;;
   lift (crs_from_epsg hazard) ;;;
   let coords := [geometry region] in
   clipped <- lift (mask hazard coords true) ;;
   let out_img := fst clipped in
   let out_transform := snd clipped in
   let out_meta :=
     mkDataset "GTiff" (ds_nodata hazard) (Some "epsg:4326") out_transform
               (im_height out_img) (im_width out_img) (ds_count hazard)
               (im_data out_img) in
   let filename_out := str_field gid_id ++ ".tif" in
   let folder_out := hazard_folder self "tifs" in
   ensure_dir folder_out ;;;
   write_file folder_out filename_out (Tif out_meta))%py.

(** The body of the loop over the countries (lines 44-108). *)
Definition clip_country (self : FloodProcess) (columns : list string)
    (country : gmap string val) : M (fs T) unit :=
  (iso3 <- lift (getitem columns country "iso3") ;;
   if negb (bool_decide (iso3 = Some (VStr (country_iso3 self)))) then ret tt
   else
     gid_region <- lift (getitem columns country "gid_region") ;;
     let gid_level := "GID_" ++ str gid_region in
     let filename := "gadm_" ++ str gid_region ++ ".shp" in
     let folder := regions_folder (str iso3) in
     let path_regions := path_join folder filename in
     regions <- read_file path_regions ;;
     for_each (gdf_rows regions) (clip_region self (gdf_columns regions) gid_level))%py.

Definition process_flood_tiff (self : FloodProcess) : M (fs T) unit :=
  (countries <- read_csv (csv_filename self) ;;
   for_each (df_rows countries) (clip_country self (df_columns countries)))%py.

(** *** process_tif *)

(** [src.transform * (x, y)] for every point of a ring (lines 149-158). *)
Fixpoint transform_ring (affine : Affine T) (coordinates : ring T) (coords : ring T)
  : ring T :=
  match coordinates with
  | [] => coords
  | i :: rest =>
      let x := fst i in
      let y := snd i in
      let '(x2, y2) := affine_mul affine (x, y) in
      transform_ring affine rest (coords ++ [(x2, y2)])%list
  end.

(** The loop over the traced shapes (lines 141-169); [vec[0]['coordinates'][0]]
    raises on a geometry without rings. *)
Fixpoint vectorize (affine : Affine T) (traced : list (geojson T * Z))
    (output : list feature) : result (list feature) :=
  match traced with
  | [] => Ok output
  | vec :: rest =>
      if (0 <? snd vec) && negb (snd vec =? 255) then
        match gj_coordinates (fst vec) with
        | [] => Raise (Exn "IndexError" "list index out of range")
        | coordinates :: _ =>
            let coords := transform_ring affine coordinates [] in
            vectorize affine rest
              (output ++ [mkFeature (gj_type (fst vec))
                                    (mkGeo "Polygon" [coords])
                                    (snd vec)])%list
        end
      else vectorize affine rest output
  end.

(** [gpd.GeoDataFrame.from_features(output, crs = 'epsg:4326')]: one row
    per feature, the properties as columns.  Without a feature the frame has
    no geometry column, and giving a CRS to such a frame raises [ValueError]
    (geopandas 0.11 and later). *)
Definition from_features (output : list feature) : result (gdf T) :=
  match output with
  | [] => Raise (Exn "ValueError"
                   "Assigning CRS to a GeoDataFrame without a geometry column is not supported.")
  | _ => Ok (mkGdf true ["value"]
               (map (fun ft => mkRow {[ "value" := VInt (f_value ft) ]} (f_geometry ft))
                    output))
  end.

(** [output.to_file(path_out, driver = 'ESRI Shapefile')]: the [.shp] and
    the files that come with it. *)
Definition to_file (output : gdf T) (folder stem : string) : M (fs T) unit :=
  (lift (to_file_check output) ;;;
   write_file folder (stem ++ ".shp") (Shp output) ;;;
   for_each [".shx"; ".dbf"; ".cpg"; ".prj"]
     (fun ext => write_file folder (stem ++ ext) Sidecar))%py.

(** The body of [try] (lines 121-172). *)
Definition process_tif_body (self : FloodProcess) (tifs : string) : M (fs T) unit :=
  if endswith tifs ".tif" then
    (let tifs := splitext_root tifs in
     let folder := hazard_folder self "tifs" in
     let filename := tifs ++ ".tif" in
     let path_in := path_join folder filename in
     let folder := hazard_folder self "shapefiles" in
     ensure_dir folder ;;;
     src <- rasterio_open path_in "r" ;;
     let affine := ds_transform src in
     array <- lift (read_band1 src) ;;
     output <- lift (vectorize affine (shapes array) []) ;;
     output <- lift (from_features output) ;;
     to_file output folder tifs)%py
  else ret tt.

Definition process_tif (self : FloodProcess) : M (fs T) unit :=
  (let folder := hazard_folder self "tifs" in
   names <- listdir folder ;;
   for_each names (fun tifs => try_except_pass (process_tif_body self tifs)))%py.

(** *** pop_flood *)

(** [gpd.GeoDataFrame()] *)
Definition empty_gdf : gdf T := mkGdf false [] [].

(** [a.append(b, ignore_index = True)] *)
Definition gdf_append (a b : gdf T) : gdf T :=
  mkGdf (gdf_geom a || gdf_geom b)
        (gdf_columns a ++ filter (fun c => c ∉ gdf_columns a) (gdf_columns b))%list
        (gdf_rows a ++ gdf_rows b)%list.

Fixpoint pop_flood_loop (folder : string) (names : list string) (combined_gdf : gdf T)
  : M (fs T) (gdf T) :=
  match names with
  | [] => ret combined_gdf
  | shapefiles :: rest =>
      if endswith shapefiles ".shp" then
        (let filepath := path_join folder shapefiles in
         gdf <- read_file filepath ;;
         pop_flood_loop folder rest (gdf_append combined_gdf gdf))%py
      else pop_flood_loop folder rest combined_gdf
  end.

Definition pop_flood (self : FloodProcess) : M (fs T) (gdf T) :=
  (let folder := hazard_folder self "shapefiles" in
   names <- listdir folder ;;
   pop_flood_loop folder names empty_gdf)%py.

(** *** flood_pop_overlay *)

(** The cells of a key column are text when some are strings and none is a
    number, numbers when it is the other way round. *)
Definition text_cell (cell : option val) : bool :=
  match cell with Some (VStr _) => true | _ => false end.
Definition number_cell (cell : option val) : bool :=
  match cell with Some (VInt _) => true | _ => false end.
Definition text_column (cells : list (option val)) : bool :=
  existsb text_cell cells && negb (existsb number_cell cells).
Definition number_column (cells : list (option val)) : bool :=
  existsb number_cell cells && negb (existsb text_cell cells).

(** [left.merge(right, left_on = on, right_on = on)]: the inner join.  Two
    missing keys match each other, as in pandas, and a key column of text
    is not merged with one of numbers. *)
Definition merge (left : gdf T) (right : df) (on : string) : result merged :=
  if negb (bool_decide (on ∈ gdf_columns left)) then Raise (Exn "KeyError" on)
  else if negb (bool_decide (on ∈ df_columns right)) then Raise (Exn "KeyError" on)
  else
    let lk := map (fun l => attrs l !! on) (gdf_rows left) in
    let rk := map (fun r => r !! on) (df_rows right) in
    if (text_column lk && number_column rk) || (number_column lk && text_column rk)
    then Raise (Exn "ValueError" "You are trying to merge on object and int64 columns")
    else Ok (mkMergedFrame (gdf_geom left)
               (flat_map (fun l =>
                  map (mkMerged l)
                      (filter (fun r => attrs l !! on = r !! on) (df_rows right)))
                  (gdf_rows left))).

(** What is done with one [.shp] of the regions folder (lines 213-223). *)
Definition overlay_step (self : FloodProcess) (data : df) (folder shapefiles : string)
  : M (fs T) (list overlay_row) :=
  (let shp_in := path_join folder shapefiles in
   country_boundaries <- read_file shp_in ;;
   pop_bound_flood <- lift (merge country_boundaries data "GID_1") ;;
   combined_gdf <- pop_flood self ;;
   lift (overlay pop_bound_flood combined_gdf))%py.

(** The loop over the files of the regions folder (lines 211-223);
    [intersection] is bound only once a [.shp] has been processed. *)
Fixpoint flood_pop_overlay_loop (self : FloodProcess) (data : df) (folder : string)
    (names : list string) (intersection : option (list overlay_row))
  : M (fs T) (list overlay_row) :=
  match names with
  | [] =>
      match intersection with
      | Some i => ret i
      | None => raise (Exn "UnboundLocalError" "intersection")
      end
  | shapefiles :: rest =>
      if endswith shapefiles ".shp" then
        (i <- overlay_step self data folder shapefiles ;;
         flood_pop_overlay_loop self data folder rest (Some i))%py
      else flood_pop_overlay_loop self data folder rest intersection
  end.

Definition flood_pop_overlay (self : FloodProcess) : M (fs T) (list overlay_row) :=
  (data <- read_csv (pop_csv self) ;;
   let folder := regions_folder (country_iso3 self) in
   names <- listdir folder ;;
   flood_pop_overlay_loop self data folder names None)%py.

End Program.
Arguments feature T : clear implicits.
Arguments merged_row T : clear implicits.
Arguments merged T : clear implicits.
Arguments overlay_row T : clear implicits.

(** ** What is relied upon of the geometry engine *)

Section Contracts.
Context {T : Type} `{Num T}.

(** What [mask] raises with [crop = True] for shapes off the raster. *)
Definition no_overlap_error : exn :=
  Exn "ValueError" "Input shapes do not overlap raster.".




(** All the points of the shapes, the rings taken together. *)
Definition vertices (coords : list (geojson T)) : list (T * T) :=
  concat (map (fun g => concat (gj_coordinates g)) coords).



(** [array[r][c]] *)
Definition cell_value (array : list (list Z)) (r c : nat) : option Z :=
  match array !! r with
  | Some row => row !! c
  | None => None
  end.

(** The outline of the pixel in row [r] and column [c], in pixel
    coordinates (x is the column, y the row), as the tracer gives it. *)
Definition unit_square (r c : nat) : ring T :=
  let x := Z.of_nat c in
  let y := Z.of_nat r in
  [(nofZ x, nofZ y); (nofZ x, nofZ (y + 1)); (nofZ (x + 1), nofZ (y + 1));
   (nofZ (x + 1), nofZ y); (nofZ x, nofZ y)].


(** A traced shape stands for a non-empty set of cells that all hold its
    value; a set of one cell is traced as the outline of that cell. *)
Definition traces_region (array : list (list Z)) (cells : list (nat * nat))
    (vec : geojson T * Z) : Prop :=
  cells <> [] /\
  (forall r c, (r, c) ∈ cells -> cell_value array r c = Some (snd vec)) /\
  gj_type (fst vec) = "Polygon" /\
  (forall r c, cells = [(r, c)] -> gj_coordinates (fst vec) = [unit_square r c]).

(** [rasterio.features.shapes]: the traced shapes split the cells of the
    array among them. *)
Definition shapes_contract (array : list (list Z)) (traced : list (geojson T * Z))
  : Prop :=
  exists regions : list (list (nat * nat)),
    Forall2 (traces_region array) regions traced /\
    NoDup (concat regions) /\
    (forall r c, is_Some (cell_value array r c) -> (r, c) ∈ concat regions).

(** The rows of an intersection overlay, given what two geometries have
    in common ([None]: nothing that the overlay keeps). *)
Definition overlay_pairs (common : geojson T -> geojson T -> option (geojson T))
    (left : list (merged_row T)) (right : list (grow T)) : list (overlay_row T) :=
  flat_map (fun l =>
    flat_map (fun r =>
      match common (geometry (m_boundary l)) (geometry r) with
      | Some g => [mkOverlay l r g]
      | None => []
      end) right) left.

(** Whatever the overlay returns is made of such rows (in some order). *)
Definition overlay_contract
    (overlay : merged T -> gdf T -> result (list (overlay_row T)))
    (common : geojson T -> geojson T -> option (geojson T)) : Prop :=
  forall a b rows,
    overlay a b = Ok rows ->
    forall row, row ∈ rows <-> row ∈ overlay_pairs common (mg_rows a) (gdf_rows b).

(** The geometry engine has no exception class [OverlayError]. *)
Definition overlay_raises_no_OverlayError
    (overlay : merged T -> gdf T -> result (list (overlay_row T))) : Prop :=
  forall a b e, overlay a b = Raise e -> exn_class e <> "OverlayError".

End Contracts.

(** ** Names for what the program reads and builds *)

Section Readings.
Context {T : Type} `{Num T}.

(** The test of line 145. *)
Definition keeps (vec : geojson T * Z) : bool :=
  (0 <? snd vec) && negb (snd vec =? 255).

(** The dict of lines 160-169, with the ring of lines 147-158. *)
Definition feature_of (affine : Affine T) (vec : geojson T * Z) : feature T :=
  mkFeature (gj_type (fst vec))
            (mkGeo "Polygon" [map (affine_mul affine) (hd [] (gj_coordinates (fst vec)))])
            (snd vec).

(** The 2 x 2 array that holds 3 in row [r0], column [c0] and the no-data
    value elsewhere. *)
Definition grid_2x2 (r0 c0 : nat) : list (list Z) :=
  let v (r c : nat) : Z := if Nat.eqb r r0 && Nat.eqb c c0 then 3 else 255 in
  [[v 0%nat 0%nat; v 0%nat 1%nat]; [v 1%nat 0%nat; v 1%nat 1%nat]].

(** The path of the hazard raster (line 72). *)
Definition hazard_path (self : FloodProcess) : string :=
  path_join_all ["data"; "raw"; "flood_hazard"; flood_tiff self].

(** The dataset after [hazard.nodata = 255]. *)
Definition with_nodata (hazard : dataset T) (nodata : Z) : dataset T :=
  mkDataset (ds_driver hazard) (Some nodata) (ds_crs hazard) (ds_transform hazard)
            (ds_height hazard) (ds_width hazard) (ds_count hazard) (ds_bands hazard).

(** The records of the shapefile [folder/name]. *)
Definition shp_rows (s : fs T) (folder name : string) : list (grow T) :=
  match files s !! path_join folder name with
  | Some (Shp g) => gdf_rows g
  | _ => []
  end.

(** The names that [pop_flood] and [flood_pop_overlay] pick in a folder. *)
Definition shp_names (names : list string) : list string :=
  List.filter (fun name => endswith name ".shp") names.

(** The disk with the file at [path] replaced by [f]. *)
Definition with_file (path : string) (f : file T) (s : fs T) : fs T :=
  mkFs (<[path := f]> (files s)) (listing s).

End Readings.

(** ** A geometry engine for rectangles on whole-number coordinates

    North-up rasters ([sa > 0], [se < 0], no rotation) and regions that are
    rectangles along the axes: there a geometry is its bounding box, and
    masking, window computation and intersection are exact. *)

Module Rect.

(** (left, bottom, right, top) *)
Definition box : Type := Z * Z * Z * Z.

Definition grow_box (bx : box) (p : Z * Z) : box :=
  let '(l, b, r, t) := bx in
  (Z.min l (fst p), Z.min b (snd p), Z.max r (fst p), Z.max t (snd p)).

Definition bounds_of_points (pts : list (Z * Z)) : option box :=
  match pts with
  | [] => None
  | p :: rest => Some (fold_left grow_box rest (fst p, snd p, fst p, snd p))
  end.

Definition bounds (coords : list (geojson Z)) : option box :=
  bounds_of_points (vertices coords).

Definition ceil_div (a b : Z) : Z := - ((- a) / b).

(** The pixel window of the shapes cut to the raster:
    (row_start, row_stop, col_start, col_stop), or nothing when the two
    do not overlap. *)
Definition geometry_window (hazard : dataset Z) (coords : list (geojson Z))
  : option (Z * Z * Z * Z) :=
  match bounds coords with
  | None => None
  | Some (l, b, r, t) =>
      let tr := ds_transform hazard in
      let col_start := Z.max 0 ((l - sc tr) / sa tr) in
      let col_stop := Z.min (Z.of_nat (ds_width hazard)) (ceil_div (r - sc tr) (sa tr)) in
      let row_start := Z.max 0 ((t - sf tr) / se tr) in
      let row_stop := Z.min (Z.of_nat (ds_height hazard)) (ceil_div (b - sf tr) (se tr)) in
      if (col_start <? col_stop) && (row_start <? row_stop)
      then Some (row_start, row_stop, col_start, col_stop)
      else None
  end.

(** Whether the centre of pixel (row, col) lies in the box (everything
    doubled to stay in whole numbers). *)
Definition centre_inside (tr : Affine Z) (bx : box) (row col : Z) : bool :=
  let '(l, b, r, t) := bx in
  let x2 := 2 * sc tr + (2 * col + 1) * sa tr in
  let y2 := 2 * sf tr + (2 * row + 1) * se tr in
  (2 * l <=? x2) && (x2 <=? 2 * r) && (2 * b <=? y2) && (y2 <=? 2 * t).

Definition slice {A} (start stop : Z) (l : list A) : list A :=
  take (Z.to_nat (stop - start)) (drop (Z.to_nat start) l).

Definition burn (hazard : dataset Z) (bx : box) (row_start row_stop col_start col_stop : Z)
    (band : list (list Z)) : list (list Z) :=
  imap (fun i row =>
    imap (fun j v =>
      if centre_inside (ds_transform hazard) bx
           (row_start + Z.of_nat i) (col_start + Z.of_nat j)
      then v else default 0 (ds_nodata hazard))
      (slice col_start col_stop row))
    (slice row_start row_stop band).

(** [rasterio.mask.mask(hazard, coords, crop = crop)] *)
Definition mask (hazard : dataset Z) (coords : list (geojson Z)) (crop : bool)
  : result (image * Affine Z) :=
  let tr := ds_transform hazard in
  let full := (0, Z.of_nat (ds_height hazard), 0, Z.of_nat (ds_width hazard)) in
  match bounds coords with
  | None => Raise (Exn "ValueError" "No valid geometry objects found")
  | Some bx =>
      match geometry_window hazard coords, crop with
      | None, true => Raise no_overlap_error
      | w, _ =>
          let '(row_start, row_stop, col_start, col_stop) :=
            if crop then default full w else full in
          Ok (mkImage (ds_count hazard)
                      (Z.to_nat (row_stop - row_start))
                      (Z.to_nat (col_stop - col_start))
                      (map (burn hazard bx row_start row_stop col_start col_stop)
                           (ds_bands hazard)),
              mkAffine (sa tr) (sb tr) (sc tr + col_start * sa tr)
                       (sd tr) (se tr) (sf tr + row_start * se tr))
      end
  end.

Definition rectangle (bx : box) : geojson Z :=
  let '(l, b, r, t) := bx in
  mkGeo "Polygon" [[(l, b); (l, t); (r, t); (r, b); (l, b)]].

(** What two rectangles have in common, when it has an area. *)
Definition common (g1 g2 : geojson Z) : option (geojson Z) :=
  match bounds [g1], bounds [g2] with
  | Some (l1, b1, r1, t1), Some (l2, b2, r2, t2) =>
      let l := Z.max l1 l2 in
      let b := Z.max b1 b2 in
      let r := Z.min r1 r2 in
      let t := Z.min t1 t2 in
      if (l <? r) && (b <? t) then Some (rectangle (l, b, r, t)) else None
  | _, _ => None
  end.

(** [gpd.overlay(df1, df2, how = 'intersection')]; a frame without a
    geometry column has no geometry to read. *)
Definition overlay (df1 : merged Z) (df2 : gdf Z) : result (list (overlay_row Z)) :=
  if mg_geom df1 && gdf_geom df2
  then Ok (overlay_pairs common (mg_rows df1) (gdf_rows df2))
  else Raise (Exn "AttributeError" "No geometry data set yet").

End Rect.

(** ** A country on a 4 x 4 raster *)

Module World.

(** The hazard raster: 4 x 4 cells of size 1, upper left corner at (0, 4). *)
Definition hazard : dataset Z :=
  mkDataset "GTiff" None (Some "EPSG:4326") (mkAffine 1 0 0 0 (-1) 4) 4%nat 4%nat 1%nat
    [[[1; 2; 3; 4]; [5; 6; 7; 8]; [9; 10; 11; 12]; [13; 14; 15; 16]]].

Definition region (gid : string) (bx : Rect.box) : grow Z :=
  mkRow {[ "GID_1" := VStr gid ]} (Rect.rectangle bx).

(** The second region lies far from the raster. *)
Definition usa1 : grow Z := region "USA.1_1" (0, 2, 2, 4).
Definition usa2 : grow Z := region "USA.2_1" (100, 100, 102, 102).
Definition usa3 : grow Z := region "USA.3_1" (1, 0, 3, 2).

Definition regions : gdf Z := mkGdf true ["GID_1"] [usa1; usa2; usa3].

Definition ken : gmap string val := {[ "iso3" := VStr "KEN"; "gid_region" := VInt 1 ]}.
Definition usa : gmap string val := {[ "iso3" := VStr "USA"; "gid_region" := VInt 1 ]}.
Definition countries : df := mkDf ["iso3"; "gid_region"] [ken; usa].

Definition self : FloodProcess := mkSelf "countries.csv" "USA" "inunriver.tif" "pop.csv".

(** The population by region: no row for USA.2_1, and a row for a region
    that the boundaries do not have. *)
Definition pop (gid : string) (n : Z) : gmap string val :=
  {[ "GID_1" := VStr gid; "population" := VInt n ]}.
Definition population : df :=
  mkDf ["GID_1"; "population"] [pop "USA.1_1" 120; pop "USA.3_1" 80; pop "USA.7_1" 5].

(** Traced hazard polygons of two regions; the first record of each file is
    the same. *)
Definition polygon (v : Z) (bx : Rect.box) : grow Z :=
  mkRow {[ "value" := VInt v ]} (Rect.rectangle bx).
Definition shp_usa1 : gdf Z :=
  mkGdf true ["value"] [polygon 3 (0, 3, 1, 4); polygon 7 (1, 2, 2, 3)].
Definition shp_usa3 : gdf Z :=
  mkGdf true ["value"] [polygon 3 (0, 3, 1, 4); polygon 9 (2, 0, 3, 1)].

Definition shapefiles_listing : list string :=
  ["USA.1_1.shp"; "USA.1_1.shx"; "USA.1_1.dbf"; "USA.3_1.dbf"; "USA.3_1.shp"].

Definition disk : fs Z :=
  mkFs (list_to_map [("countries.csv", Csv countries);
                     ("pop.csv", Csv population);
                     ("data/processed/USA/regions/gadm_1.shp", Shp regions);
                     ("data/processed/USA/regions/gadm_1.dbf", Sidecar);
                     ("data/processed/USA/hazards/inunriver/shapefiles/USA.1_1.shp",
                      Shp shp_usa1);
                     ("data/processed/USA/hazards/inunriver/shapefiles/USA.1_1.shx", Sidecar);
                     ("data/processed/USA/hazards/inunriver/shapefiles/USA.1_1.dbf", Sidecar);
                     ("data/processed/USA/hazards/inunriver/shapefiles/USA.3_1.dbf", Sidecar);
                     ("data/processed/USA/hazards/inunriver/shapefiles/USA.3_1.shp",
                      Shp shp_usa3);
                     ("data/raw/flood_hazard/inunriver.tif", Tif hazard)])
       (list_to_map [("data/processed/USA/regions", ["gadm_1.dbf"; "gadm_1.shp"]);
                     ("data/processed/USA/hazards/inunriver/shapefiles",
                      shapefiles_listing)]).


(** A population file none of whose keys is a key of the boundaries. *)
Definition strangers : df := mkDf ["GID_1"; "population"] [pop "KEN.1_1" 40].

Definition disk_strangers : fs Z :=
  mkFs (<["pop.csv" := Csv strangers]> (files disk)) (listing disk).

(** A shapefile folder whose only shapefile has no record. *)
Definition disk_dry : fs Z :=
  mkFs (<["data/processed/USA/hazards/inunriver/shapefiles/USA.1_1.shp"
          := Shp (mkGdf true ["value"] [])]> (files disk))
       (<["data/processed/USA/hazards/inunriver/shapefiles" := ["USA.1_1.shp"]]>
          (listing disk)).

(** Boundaries of level 2: two districts of one level-1 region, and a
    population file with one row per district. *)
Definition district (gid1 gid2 : string) (bx : Rect.box) : grow Z :=
  mkRow {[ "GID_1" := VStr gid1; "GID_2" := VStr gid2 ]} (Rect.rectangle bx).
Definition districts : gdf Z :=
  mkGdf true ["GID_1"; "GID_2"]
    [district "USA.1_1" "USA.1.1_1" (0, 2, 1, 4); district "USA.1_1" "USA.1.2_1" (1, 2, 2, 4)].
Definition pop2 (gid1 gid2 : string) (n : Z) : gmap string val :=
  {[ "GID_1" := VStr gid1; "GID_2" := VStr gid2; "population" := VInt n ]}.
Definition population2 : df :=
  mkDf ["GID_1"; "GID_2"; "population"]
    [pop2 "USA.1_1" "USA.1.1_1" 70; pop2 "USA.1_1" "USA.1.2_1" 50].

(** A countries file that sets level 2 for the country. *)
Definition countries_level2 : df :=
  mkDf ["iso3"; "gid_region"] [{[ "iso3" := VStr "USA"; "gid_region" := VInt 2 ]}].


(** The hazard polygons of the two shapefiles, the boundaries joined with
    the population, and their overlay. *)
Definition hazards : gdf Z := gdf_append (gdf_append empty_gdf shp_usa1) shp_usa3.
Definition joined : merged Z :=
  mkMergedFrame true [mkMerged usa1 (pop "USA.1_1" 120); mkMerged usa3 (pop "USA.3_1" 80)].
Definition exposure : list (overlay_row Z) :=
  overlay_pairs Rect.common (mg_rows joined) (gdf_rows hazards).

(** The same for the boundaries of level 2: every district is paired with
    both population rows of its level-1 region. *)
Definition joined2 : list (merged_row Z) :=
  flat_map (fun l => map (mkMerged l) (df_rows population2)) (gdf_rows districts).
Definition exposure2 : list (overlay_row Z) :=
  overlay_pairs Rect.common joined2 (gdf_rows hazards).

(** The raster of a clipped region: cells of size 2, upper left corner at
    (10, 50). *)
Definition affine : Affine Z := mkAffine 2 0 10 0 (-2) 50.

(** What the tracer yields on [grid_2x2 0 0]: the outline of the cell that
    holds 3 and the outline of the three no-data cells around it. *)
Definition traced_2x2 : list (geojson Z * Z) :=
  [(mkGeo "Polygon" [[(0, 0); (0, 1); (1, 1); (1, 0); (0, 0)]], 3);
   (mkGeo "Polygon" [[(1, 0); (1, 1); (0, 1); (0, 2); (2, 2); (2, 0); (1, 0)]], 255)].

(** What it yields on a 2 x 2 array of no-data: one square. *)
Definition nodata_2x2 : list (list Z) := [[255; 255]; [255; 255]].
Definition traced_nodata : list (geojson Z * Z) :=
  [(mkGeo "Polygon" [[(0, 0); (0, 2); (2, 2); (2, 0); (0, 0)]], 255)].

(** What it yields on a 3 x 3 array holding 5 around a centre cell holding
    0: the shape of the cells holding 5 has a hole. *)
Definition traced_hole : list (geojson Z * Z) :=
  [(mkGeo "Polygon" [[(0, 0); (0, 3); (3, 3); (3, 0); (0, 0)];
                     [(1, 1); (2, 1); (2, 2); (1, 2); (1, 1)]], 5);
   (mkGeo "Polygon" [[(1, 1); (1, 2); (2, 2); (2, 1); (1, 1)]], 0)].

End World.

(** ** The batch script (scripts/all_runner.py)

    The loop of lines 68-88.  The classes [CoastProcess] and
    [IntersectLayers] are not part of the sources at hand: their methods are
    parameters, each taking the arguments its object was built with (the
    constructors taken to store their arguments only, as
    [FloodProcess.__init__] does). *)

Section Runner.
Context {S : Type}.

(** [CoastProcess(path, coast, coastal_tiff).process_flood_tiff()] and
    [.process_flood_shapefile()] *)
Variable coast_process_flood_tiff : string -> string -> string -> M S unit.
Variable coast_process_flood_shapefile : string -> string -> string -> M S unit.
(** [IntersectLayers(coast, 'GSM', file).pop_cozard()] and
    [.coverage_cozard()] *)
Variable pop_cozard : string -> string -> string -> M S unit.
Variable coverage_cozard : string -> string -> string -> M S unit.

(** The body of [try] (lines 74-82). *)
Definition run_item (data_raw coast file : string) : M S unit :=
  (let path := path_join data_raw "countries.csv" in
   let coastal_tiff := path_join_all [data_raw; "coastal_hazard"; file] in
   coast_process_flood_tiff path coast coastal_tiff ;;;
   coast_process_flood_shapefile path coast coastal_tiff ;;;
   pop_cozard coast "GSM" file ;;;
   coverage_cozard coast "GSM" file)%py.

(** [for coast in south_coast: for file in coast_files: try ... except: pass] *)
Definition all_runner (data_raw : string) (south_coast coast_files : list string)
  : M S unit :=
  for_each south_coast (fun coast =>
    for_each coast_files (fun file =>
      try_except_pass (run_item data_raw coast file))).

End Runner.

(** ** A folder of clipped rasters, and disks with something missing *)

Module Site.

(** Two clipped rasters: one cell of hazard among no-data, and no-data only. *)
Definition clipped : dataset Z :=
  mkDataset "GTiff" (Some 255) (Some "epsg:4326") World.affine 2%nat 2%nat 1%nat
    [grid_2x2 0 0].
Definition dry : dataset Z :=
  mkDataset "GTiff" (Some 255) (Some "epsg:4326") World.affine 2%nat 2%nat 1%nat
    [World.nodata_2x2].

(** The tracer on the two rasters of the folder. *)
Definition tracer (array : list (list Z)) : list (geojson Z * Z) :=
  if decide (array = grid_2x2 0 0) then World.traced_2x2
  else if decide (array = World.nodata_2x2) then World.traced_nodata
  else [].

(** A shapefile driver that refuses a frame without records. *)
Definition driver (output : gdf Z) : result unit :=
  match gdf_rows output with
  | [] => Raise (Exn "ValueError" "Cannot write empty DataFrame to file.")
  | _ => Ok tt
  end.

(** The folder lists a text file, a name made of a dot and [tif], and a
    raster that cannot be opened. *)
Definition tifs_listing : list string :=
  ["USA.1_1.tif"; "readme.txt"; "USA.2_1.tif"; ".tif"; "USA.9_1.tif"].

Definition disk : fs Z :=
  mkFs (list_to_map [("data/processed/USA/hazards/inunriver/tifs/USA.1_1.tif", Tif clipped);
                     ("data/processed/USA/hazards/inunriver/tifs/USA.2_1.tif", Tif dry)])
       (list_to_map [("data/processed/USA/hazards/inunriver/tifs", tifs_listing)]).

(** A countries file without the country. *)
Definition disk_abroad : fs Z :=
  with_file "countries.csv" (Csv (mkDf ["iso3"; "gid_region"] [World.ken])) World.disk.

(** Level 2 set for the country, and boundaries that carry level 1 only. *)
Definition disk_level_mismatch : fs Z :=
  with_file "countries.csv" (Csv World.countries_level2)
    (with_file "data/processed/USA/regions/gadm_2.shp" (Shp World.regions) World.disk).

(** A regions folder without shapefile. *)
Definition disk_no_boundaries : fs Z :=
  mkFs (files World.disk)
       (<["data/processed/USA/regions" := ["gadm_1.dbf"; "gadm_1.prj"]]> (listing World.disk)).

(** A regions folder whose first shapefile is the national outline, which
    has no [GID_1]. *)
Definition outline : gdf Z :=
  mkGdf true ["GID_0"] [mkRow {[ "GID_0" := VStr "USA" ]} (Rect.rectangle (0, 0, 4, 4))].
Definition disk_outline : fs Z :=
  mkFs (<["data/processed/USA/regions/national_outline.shp" := Shp outline]>
          (files World.disk))
       (<["data/processed/USA/regions" := ["national_outline.shp"; "gadm_1.shp"]]>
          (listing World.disk)).

(** A shapefile folder that lists a shapefile which is not on the disk. *)
Definition disk_torn : fs Z :=
  mkFs (files World.disk)
       (<["data/processed/USA/hazards/inunriver/shapefiles"
          := ["USA.1_1.shp"; "USA.5_1.shp"; "USA.3_1.shp"]]> (listing World.disk)).

(** A shapefile folder left with files that are no [.shp]. *)
Definition disk_leftovers : fs Z :=
  mkFs (files World.disk)
       (<["data/processed/USA/hazards/inunriver/shapefiles"
          := ["USA.1_1.shx"; "USA.1_1.dbf"]]> (listing World.disk)).

(** Steps for the batch script that write their name in a log; the
    clipping step fails on the file [bad.tif]. *)
Definition logged (step : string) (a b c : string) : M (list string) unit :=
  let entry := step ++ " " ++ a ++ " " ++ b ++ " " ++ c in
  fun log => (app log [entry], Ok tt).
Definition clip_or_fail (path coast tiff : string) : M (list string) unit :=
  if endswith tiff "bad.tif" then raise (Exn "ValueError" "Input shapes do not overlap raster.")
  else logged "clip" path coast tiff.

(** Shapes as a tracer would not give them: without ring. *)
Definition ringless_kept : list (geojson Z * Z) :=
  [(mkGeo "Polygon" [[(0, 0); (0, 1); (1, 1); (1, 0); (0, 0)]], 3); (mkGeo "Polygon" [], 7)].
Definition ringless_dropped : list (geojson Z * Z) :=
  [(mkGeo "Polygon" [[(0, 0); (0, 1); (1, 1); (1, 0); (0, 0)]], 3); (mkGeo "Polygon" [], 255)].

End Site.

(** ** Names for what a run may leave on the disk *)

Section Invariants.
Context {T : Type} `{Num T}.

(** Every file after the run was there before with the same content, or
    satisfies [Q]. *)
Definition only_adds {A} (Q : file T -> Prop) (m : M (fs T) A) : Prop :=
  forall s path f,
    files (fst (m s)) !! path = Some f -> files s !! path = Some f \/ Q f.

(** A frame of hazard polygons: every record has a value above 0 other than
    255 and a polygon of one ring. *)
Definition hazard_frame (g : gdf T) : Prop :=
  Forall (fun row =>
    exists v ring, attrs row !! "value" = Some (VInt v) /\ 0 < v /\ v <> 255 /\
                   geometry row = mkGeo "Polygon" [ring]) (gdf_rows g).

(** What [process_tif] writes: hazard polygons and the files that come with
    a shapefile. *)
Definition vector_file (f : file T) : Prop :=
  match f with
  | Shp g => hazard_frame g
  | Sidecar => True
  | _ => False
  end.

End Invariants.

(** * Theorems *)

(** ** Strings and paths on the names the program meets *)

Example endswith_tif : endswith "USA.1_1.tif" ".tif" = true.
Proof. reflexivity. Qed.

Example endswith_sidecar : endswith "USA.1_1.dbf" ".shp" = false.
Proof. reflexivity. Qed.

Example splitext_root_tif : splitext_root "USA.1_1.tif" = "USA.1_1".
Proof. reflexivity. Qed.

Example splitext_root_dotfile : splitext_root ".tif" = ".tif".
Proof. reflexivity. Qed.

Example regions_folder_USA : regions_folder "USA" = "data/processed/USA/regions".
Proof. reflexivity. Qed.

Example path_join_absolute : path_join_all ["data"; "raw"; "/tmp/x.tif"] = "/tmp/x.tif".
Proof. reflexivity. Qed.

Example str_field_missing : str_field None ++ ".tif" = "None.tif".
Proof. reflexivity. Qed.

Example str_level : "GID_" ++ str (Some (VInt 1)) = "GID_1".
Proof. by vm_compute. Qed.

(** ** The traced loop, read as a filter and a map *)

Section Traced.
Context {T : Type} `{Num T}.

Lemma transform_ring_app (affine : Affine T) coordinates coords :
  transform_ring affine coordinates coords
  = (coords ++ map (affine_mul affine) coordinates)%list.
Proof.
  revert coords.
  induction coordinates as [|[x y] rest IH]; intros coords; simpl.
  - by rewrite app_nil_r.
  - rewrite IH, <- app_assoc. reflexivity.
Qed.

Lemma keeps_spec (vec : geojson T * Z) :
  keeps vec = true <-> 0 < snd vec /\ snd vec <> 255.
Proof.
  unfold keeps. rewrite andb_true_iff, negb_true_iff, Z.ltb_lt, Z.eqb_neq. tauto.
Qed.

(** The loop succeeds exactly when every kept shape has a ring, and then
    appends one feature per kept shape, in order. *)
Lemma vectorize_Ok (affine : Affine T) traced output res :
  vectorize affine traced output = Ok res <->
  Forall (fun vec => gj_coordinates (fst vec) <> []) (List.filter keeps traced) /\
  res = (output ++ map (feature_of affine) (List.filter keeps traced))%list.
Proof.
  revert output.
  induction traced as [|vec rest IH]; intros output; simpl.
  - rewrite app_nil_r. split.
    + intros [= <-]. by split.
    + intros [_ ->]. done.
  - fold (keeps vec). destruct (keeps vec) eqn:K; [|apply IH].
    destruct (gj_coordinates (fst vec)) as [|exterior holes] eqn:C.
    + split; [done|]. intros [HF _]. inversion HF as [|? ? Hne]; subst.
      by rewrite C in Hne.
    + rewrite IH, transform_ring_app, <- app_assoc. simpl.
      unfold feature_of at 2. rewrite C. simpl.
      split.
      * intros [HF ->]. split; [|done]. constructor; [by rewrite C|done].
      * intros [HF ->]. split; [|done]. by inversion HF.
Qed.

Lemma vectorize_Raise (affine : Affine T) traced output e :
  vectorize affine traced output = Raise e ->
  e = Exn "IndexError" "list index out of range" /\
  Exists (fun vec => keeps vec = true /\ gj_coordinates (fst vec) = []) traced.
Proof.
  revert output.
  induction traced as [|vec rest IH]; intros output; simpl; [done|].
  fold (keeps vec). destruct (keeps vec) eqn:K.
  - destruct (gj_coordinates (fst vec)) eqn:C.
    + intros [= <-]. split; [done|]. by left.
    + intros Hr. destruct (IH _ Hr) as [-> HE]. split; [done|]. by right.
  - intros Hr. destruct (IH _ Hr) as [-> HE]. split; [done|]. by right.
Qed.

End Traced.

(** ** The vectorizer: [process_tif] *)

Section Vectorizer.
Context {T : Type} `{Num T}.
Implicit Types (affine : Affine T) (traced : list (geojson T * Z)).

Lemma lookup_map {A B} (f : A -> B) (l : list A) (i : nat) :
  map f l !! i = f <$> (l !! i).
Proof.
  revert i. induction l as [|a l IH]; intros [|i]; simpl; done.
Qed.

Lemma map_value_features affine traced :
  map f_value (map (feature_of affine) (List.filter keeps traced))
  = List.filter (fun v => (0 <? v) && negb (v =? 255)) (map snd traced).
Proof.
  induction traced as [|vec rest IH]; simpl; [done|].
  fold (keeps vec). destruct (keeps vec); simpl; by rewrite ?IH.
Qed.

(** C2. Every feature that the loop of [process_tif] appends has a value
    above 0 and different from the no-data value 255: the values of the
    output are those of the traced shapes that pass this test, in their
    order, so a shape traced from cells holding 0 or 255 leaves nothing. *)
Theorem vectorize_emits_hazard_values_only affine traced out :
  vectorize affine traced [] = Ok out ->
  Forall (fun ft => 0 < f_value ft /\ f_value ft <> 255) out /\
  map f_value out
  = List.filter (fun v => (0 <? v) && negb (v =? 255)) (map snd traced).
Proof.
  intros Hv. apply vectorize_Ok in Hv as [_ ->]. simpl. split.
  - apply Forall_forall. intros ft Hin.
    apply list_elem_of_In, in_map_iff in Hin as (vec & <- & Hin).
    apply filter_In in Hin as [_ K]. by apply keeps_spec in K.
  - apply map_value_features.
Qed.

(** C4. Each kept shape gives one feature whose ring has, vertex for
    vertex, the raster's transform applied to the vertex of the traced
    exterior ring: [(x * a + y * b + c, x * d + y * e + f)]. *)
Theorem vectorize_applies_affine_to_each_vertex affine traced out :
  vectorize affine traced [] = Ok out ->
  Forall2 (fun vec ft =>
    exists exterior holes coords,
      gj_coordinates (fst vec) = exterior :: holes /\
      gj_coordinates (f_geometry ft) = [coords] /\
      length coords = length exterior /\
      forall (i : nat) x y, exterior !! i = Some (x, y) ->
        coords !! i = Some (affine_mul affine (x, y)) /\
        affine_mul affine (x, y)
        = (nadd (nadd (nmul x (sa affine)) (nmul y (sb affine))) (sc affine),
           nadd (nadd (nmul x (sd affine)) (nmul y (se affine))) (sf affine)))
    (List.filter keeps traced) out.
Proof.
  intros Hv. apply vectorize_Ok in Hv as [HF ->]. simpl.
  induction HF as [|vec rest Hne _ IH]; simpl; constructor; [|exact IH].
  destruct (gj_coordinates (fst vec)) as [|exterior holes] eqn:C; [done|].
  exists exterior, holes, (map (affine_mul affine) exterior).
  unfold feature_of. rewrite C. simpl.
  split; [done|]. split; [done|]. split; [by rewrite length_map|].
  intros i x y Hl. split; [|done].
  by rewrite lookup_map, Hl.
Qed.

(** C10. Of every traced shape only the first ring is read: cutting the
    later rings (the holes) from the traced shapes changes nothing, and
    every feature of the output has one ring, the image of that first
    ring. *)
Theorem vectorize_keeps_exterior_ring_only affine traced :
  vectorize affine
    (map (fun vec => (mkGeo (gj_type (fst vec)) (take 1 (gj_coordinates (fst vec))),
                      snd vec)) traced) []
  = vectorize affine traced [] /\
  forall out, vectorize affine traced [] = Ok out ->
    Forall2 (fun vec ft =>
      gj_coordinates (f_geometry ft)
      = [map (affine_mul affine) (hd [] (gj_coordinates (fst vec)))] /\
      length (gj_coordinates (f_geometry ft)) = 1%nat)
      (List.filter keeps traced) out.
Proof.
  split.
  - generalize (@nil (feature T)) as output.
    induction traced as [|vec rest IH]; intros output; simpl; [done|].
    destruct ((0 <? snd vec) && negb (snd vec =? 255)); [|apply IH].
    destruct (gj_coordinates (fst vec)) as [|exterior holes]; simpl; [done|].
    apply IH.
  - intros out Hv. apply vectorize_Ok in Hv as [_ ->]. simpl.
    induction (List.filter keeps traced) as [|vec rest IH]; simpl; by constructor.
Qed.

(** The value of a traced shape is held by a cell of the array. *)
Lemma traced_value_in_array array traced vec :
  shapes_contract array traced -> vec ∈ traced ->
  exists r c, cell_value array r c = Some (snd vec).
Proof.
  intros (regions & HF & _ & _) Hin.
  induction HF as [|cells vec' regions' traced' Hreg _ IH].
  - by apply elem_of_nil in Hin.
  - apply elem_of_cons in Hin as [->|Hin]; [|by apply IH].
    destruct Hreg as (Hne & Hval & _).
    destruct cells as [|[r c] cells]; [done|].
    exists r, c. apply Hval. by left.
Qed.

(** C5. When every cell of the clipped raster holds the no-data value
    255, the loop of [process_tif] over the traced shapes ends with an
    empty output. *)
Theorem vectorize_uniform_nodata affine array traced :
  shapes_contract array traced ->
  (forall r c v, cell_value array r c = Some v -> v = 255) ->
  vectorize affine traced [] = Ok [].
Proof.
  intros Hc Hu. apply vectorize_Ok.
  assert (List.filter keeps traced = []) as ->; [|by split].
  assert (forall vec, vec ∈ traced -> keeps vec = false) as Hk.
  { intros vec Hin. destruct (traced_value_in_array _ _ _ Hc Hin) as (r & c & Hv).
    apply Hu in Hv. unfold keeps. rewrite Hv. reflexivity. }
  clear Hc. induction traced as [|vec rest IH]; simpl; [done|].
  rewrite (Hk vec) by by left. apply IH. intros v Hv. apply Hk. by right.
Qed.


Section OneCell.
Variables (array : list (list Z)) (r0 c0 : nat).
Hypothesis Hcell : cell_value array r0 c0 = Some 3.
Hypothesis Hrest : forall r c v,
  cell_value array r c = Some v -> (r, c) <> (r0, c0) -> v = 255.


End OneCell.


End Vectorizer.

(** How the loop sits in [process_tif]: for a [.tif] of the folder whose
    raster can be read, the features of the loop are what is written, and an
    exception of the loop ends the [try] with nothing written. *)
Section ProcessTif.
Context {T : Type} `{Num T}.
Variable shapes : list (list Z) -> list (geojson T * Z).
Variable to_file_check : gdf T -> result unit.

Lemma ensure_dir_files folder (s : fs T) :
  files (fst (ensure_dir folder s)) = files s /\ snd (ensure_dir folder s) = Ok tt.
Proof.
  unfold ensure_dir, bind, get. by destruct (exists_dir folder s).
Qed.

Lemma process_tif_body_traced self name src array (s : fs T) :
  endswith name ".tif" = true ->
  files s !! path_join (hazard_folder self "tifs") (splitext_root name ++ ".tif")
  = Some (Tif src) ->
  read_band1 src = Ok array ->
  process_tif_body shapes to_file_check self name s
  = match vectorize (ds_transform src) (shapes array) [] with
    | Ok out =>
        match from_features out with
        | Ok output =>
            to_file to_file_check output (hazard_folder self "shapefiles")
              (splitext_root name) (fst (ensure_dir (hazard_folder self "shapefiles") s))
        | Raise e => (fst (ensure_dir (hazard_folder self "shapefiles") s), Raise e)
        end
    | Raise e => (fst (ensure_dir (hazard_folder self "shapefiles") s), Raise e)
    end.
Proof.
  intros Hname Hfile Hband. unfold process_tif_body. rewrite Hname.
  destruct (ensure_dir_files (hazard_folder self "shapefiles") s) as [Hf Hr].
  unfold bind at 1.
  destruct (ensure_dir (hazard_folder self "shapefiles") s) as [s1 r1].
  simpl in Hf, Hr. subst r1.
  unfold bind, rasterio_open, lift. rewrite Hf, Hfile, Hband. simpl.
  destruct (vectorize _ _ _) as [out|e]; [|done].
  by destruct (from_features out).
Qed.

(** A [try] that raises leaves [process_tif] going: the loop over the
    folder never raises. *)
Lemma process_tif_never_raises self names (s : fs T) :
  snd (for_each names
         (fun tifs => try_except_pass (process_tif_body shapes to_file_check self tifs)) s)
  = Ok tt.
Proof.
  revert s. induction names as [|name rest IH]; intros s; simpl; [done|].
  unfold bind, try_except_pass.
  destruct (process_tif_body shapes to_file_check self name s) as [s1 [[]|e]]; apply IH.
Qed.

End ProcessTif.

(** ** The clipper: [process_flood_tiff] *)

Section Clipper.
Context {T : Type} `{Num T}.
Variable mask : dataset T -> list (geojson T) -> bool -> result (image * Affine T).

Lemma for_each_app {S A} (l1 l2 : list A) (body : A -> M S unit) (s : S) :
  for_each (l1 ++ l2) body s
  = match for_each l1 body s with
    | (s1, Ok _) => for_each l2 body s1
    | (s1, Raise e) => (s1, Raise e)
    end.
Proof.
  revert s. induction l1 as [|x l1 IH]; intros s; simpl; [done|].
  unfold bind. destruct (body x s) as [s' [[]|e]]; [apply IH|done].
Qed.


(** A row of the countries file that names the country: its regions are
    read and clipped one after the other. *)
Lemma clip_country_matching self columns country regions s :
  "iso3" ∈ columns ->
  "gid_region" ∈ columns ->
  country !! "iso3" = Some (VStr (country_iso3 self)) ->
  files s !! path_join (regions_folder (country_iso3 self))
                       ("gadm_" ++ str (country !! "gid_region") ++ ".shp")
  = Some (Shp regions) ->
  clip_country mask self columns country s
  = for_each (gdf_rows regions)
      (clip_region mask self (gdf_columns regions)
                   ("GID_" ++ str (country !! "gid_region"))) s.
Proof.
  intros Hiso Hgid Hcountry Hshp.
  unfold clip_country, bind, lift, getitem, read_file.
  rewrite !bool_decide_eq_true_2 by done.
  cbn [negb]. rewrite Hcountry. cbn [str]. by rewrite Hshp.
Qed.


End Clipper.

Section ClipperOnRectangles.





End ClipperOnRectangles.

(** ** The overlay engine: [pop_flood] and [flood_pop_overlay] *)

Section PopFlood.
Context {T : Type} `{Num T}.

Lemma pop_flood_loop_state folder names combined (s : fs T) :
  fst (pop_flood_loop folder names combined s) = s.
Proof.
  revert combined. induction names as [|name rest IH]; intros combined; simpl; [done|].
  destruct (endswith name ".shp"); [|apply IH].
  unfold bind, read_file.
  destruct (files s !! path_join folder name) as [[]|]; simpl; auto.
Qed.

Lemma pop_flood_state self (s : fs T) : fst (pop_flood self s) = s.
Proof.
  unfold pop_flood, bind, listdir.
  destruct (listing s !! hazard_folder self "shapefiles"); [|done].
  apply pop_flood_loop_state.
Qed.

Lemma pop_flood_loop_rows folder names combined (s : fs T) :
  (forall name, name ∈ names -> endswith name ".shp" = true ->
     exists g, files s !! path_join folder name = Some (Shp g)) ->
  exists out, pop_flood_loop folder names combined s = (s, Ok out) /\
    gdf_rows out
    = (gdf_rows combined ++ concat (map (shp_rows s folder) (shp_names names)))%list.
Proof.
  revert combined. induction names as [|name rest IH]; intros combined Hread; simpl.
  - exists combined. by rewrite app_nil_r.
  - destruct (endswith name ".shp") eqn:E.
    + destruct (Hread name) as [g Hg]; [by left|done|].
      unfold bind, read_file. rewrite Hg.
      destruct (IH (gdf_append combined g)) as (out & Hout & Hrows).
      { intros n Hn. apply Hread. by right. }
      exists out. split; [done|]. rewrite Hrows. simpl.
      unfold shp_rows at 2. rewrite Hg. by rewrite <- app_assoc.
    + apply IH. intros n Hn. apply Hread. by right.
Qed.



Lemma length_concat_sum {A} (ls : list (list A)) :
  length (concat ls) = sum_list (map length ls).
Proof. induction ls as [|l ls IH]; simpl; [done|]. by rewrite length_app, IH. Qed.

Lemma filter_concat {A} (P : A -> bool) (ls : list (list A)) :
  List.filter P (concat ls) = concat (map (List.filter P) ls).
Proof.
  induction ls as [|l ls IH]; simpl; [done|]. by rewrite List.filter_app, IH.
Qed.

(** C6. [pop_flood] returns the records of the [.shp] files of the
    country's shapefile folder put one after the other: the output has as
    many records as the files together, every record of a file is in it,
    and records are never merged: whatever the test, the output holds as many
    records passing it as the files together, so a record present in two
    files is present twice. *)
Theorem pop_flood_concatenates self (s : fs T) names :
  listing s !! hazard_folder self "shapefiles" = Some names ->
  (forall name, name ∈ names -> endswith name ".shp" = true ->
     exists g, files s !! path_join (hazard_folder self "shapefiles") name = Some (Shp g)) ->
  exists out, pop_flood self s = (s, Ok out) /\
    let inputs := map (shp_rows s (hazard_folder self "shapefiles")) (shp_names names) in
    gdf_rows out = concat inputs /\
    length (gdf_rows out) = sum_list (map length inputs) /\
    (forall rows row, rows ∈ inputs -> row ∈ rows -> row ∈ gdf_rows out) /\
    (forall P : grow T -> bool,
       length (List.filter P (gdf_rows out))
       = sum_list (map (fun rows => length (List.filter P rows)) inputs)).
Proof.
  intros Hlist Hread. unfold pop_flood, bind, listdir. rewrite Hlist.
  destruct (pop_flood_loop_rows _ _ empty_gdf s Hread) as (out & -> & Hrows).
  exists out. split; [done|]. simpl in Hrows. cbv zeta. rewrite Hrows.
  split; [done|]. split; [apply length_concat_sum|]. split.
  - intros rows row Hin Hrow. apply list_elem_of_In, in_concat.
    exists rows. by rewrite <- !list_elem_of_In.
  - intros P. rewrite filter_concat, length_concat_sum. by rewrite !map_map.
Qed.

End PopFlood.

Section FloodPopOverlay.
Context {T : Type} `{Num T}.
Variable overlay : merged T -> gdf T -> result (list (overlay_row T)).

Lemma merge_rows (left : gdf T) (right : df) on joined :
  merge left right on = Ok joined ->
  forall l r, mkMerged l r ∈ mg_rows joined <->
    l ∈ gdf_rows left /\ r ∈ df_rows right /\ attrs l !! on = r !! on.
Proof.
  unfold merge. intros Hm l r.
  destruct (bool_decide (on ∈ gdf_columns left)); [|done].
  destruct (bool_decide (on ∈ df_columns right)); [|done].
  simpl in Hm. destruct (_ || _) in Hm; [done|].
  injection Hm as <-. simpl.
  rewrite list_elem_of_In, in_flat_map. split.
  - intros (l' & Hl' & Hin). apply in_map_iff in Hin as (r' & [= -> ->] & Hr').
    apply list_elem_of_In, list_elem_of_filter in Hr' as [Hkey Hr'].
    by rewrite list_elem_of_In.
  - intros (Hl & Hr & Hkey). exists l. split; [by apply list_elem_of_In|].
    apply in_map, list_elem_of_In, list_elem_of_filter. by split.
Qed.

Lemma overlay_pairs_rows common (left : list (merged_row T)) (right : list (grow T)) row :
  row ∈ overlay_pairs common left right <->
  o_joined row ∈ left /\ o_hazard row ∈ right /\
  common (geometry (m_boundary (o_joined row))) (geometry (o_hazard row))
  = Some (o_geometry row).
Proof.
  unfold overlay_pairs. rewrite list_elem_of_In, in_flat_map. split.
  - intros (l & Hl & Hin). apply in_flat_map in Hin as (r & Hr & Hin).
    destruct (common _ _) as [g|] eqn:E; [|done].
    destruct Hin as [<-|[]]. simpl. by rewrite !list_elem_of_In.
  - intros (Hl & Hr & Hc). exists (o_joined row). split; [by apply list_elem_of_In|].
    apply in_flat_map. exists (o_hazard row). split; [by apply list_elem_of_In|].
    rewrite Hc. left. by destruct row.
Qed.

Lemma overlay_step_state self data folder name (s : fs T) :
  fst (overlay_step overlay self data folder name s) = s.
Proof.
  unfold overlay_step, bind, read_file, lift.
  destruct (files s !! path_join folder name) as [[]|]; try done.
  destruct (merge _ _ _); [|done].
  pose proof (pop_flood_state self s) as Hs.
  destruct (pop_flood self s) as [s' [hazards|e]]; simpl in *; by subst.
Qed.

Lemma overlay_step_result self data folder name boundaries joined hazards (s : fs T) :
  files s !! path_join folder name = Some (Shp boundaries) ->
  merge boundaries data "GID_1" = Ok joined ->
  pop_flood self s = (s, Ok hazards) ->
  overlay_step overlay self data folder name s = (s, overlay joined hazards).
Proof.
  intros Hshp Hm Hp. unfold overlay_step, bind, read_file, lift.
  by rewrite Hshp, Hm, Hp.
Qed.

(** Names that are no [.shp] leave [intersection] as it is. *)
Lemma flood_pop_overlay_loop_skips self data folder names i (s : fs T) :
  Forall (fun name => endswith name ".shp" = false) names ->
  flood_pop_overlay_loop overlay self data folder names (Some i) s = (s, Ok i).
Proof.
  induction 1 as [|name rest Hn _ IH]; simpl; [done|]. by rewrite Hn.
Qed.

(** The loop returns what the last [.shp] of the folder gives, or stops at
    the first one that raises. *)
Lemma flood_pop_overlay_loop_last self data folder before name after acc (s : fs T) :
  endswith name ".shp" = true ->
  Forall (fun n => endswith n ".shp" = false) after ->
  (forall n, n ∈ before -> endswith n ".shp" = true ->
     is_ok (snd (overlay_step overlay self data folder n s)) = true) ->
  flood_pop_overlay_loop overlay self data folder (before ++ name :: after) acc s
  = overlay_step overlay self data folder name s.
Proof.
  intros Hname Hafter. revert acc.
  induction before as [|n before IH]; intros acc Hbefore; simpl.
  - rewrite Hname. unfold bind.
    pose proof (overlay_step_state self data folder name s) as Hs.
    destruct (overlay_step overlay self data folder name s) as [s' [i|e]];
      simpl in Hs; subst; [|done].
    by apply flood_pop_overlay_loop_skips.
  - destruct (endswith n ".shp") eqn:E.
    + unfold bind.
      pose proof (overlay_step_state self data folder n s) as Hs.
      pose proof (Hbefore n (list_elem_of_here _ _) E) as Hok.
      destruct (overlay_step overlay self data folder n s) as [s' [i|e]];
        simpl in Hs, Hok; subst; [|done].
      apply IH. intros m Hm. apply Hbefore. by right.
    + apply IH. intros m Hm. apply Hbefore. by right.
Qed.

(** The function returns what the overlay gives for the last [.shp] of the
    regions folder, whether a result or an exception. *)
Lemma flood_pop_overlay_last
    self data before name after boundaries joined hazards (s : fs T) :
  files s !! pop_csv self = Some (Csv data) ->
  listing s !! regions_folder (country_iso3 self) = Some (before ++ name :: after)%list ->
  endswith name ".shp" = true ->
  Forall (fun n => endswith n ".shp" = false) after ->
  (forall n, n ∈ before -> endswith n ".shp" = true ->
     is_ok (snd (overlay_step overlay self data (regions_folder (country_iso3 self)) n s))
     = true) ->
  files s !! path_join (regions_folder (country_iso3 self)) name = Some (Shp boundaries) ->
  merge boundaries data "GID_1" = Ok joined ->
  pop_flood self s = (s, Ok hazards) ->
  flood_pop_overlay overlay self s = (s, overlay joined hazards).
Proof.
  intros Hcsv Hlist Hname Hafter Hbefore Hshp Hm Hp.
  unfold flood_pop_overlay, bind, read_csv, listdir. rewrite Hcsv, Hlist.
  rewrite flood_pop_overlay_loop_last by done.
  by apply (overlay_step_result _ _ _ _ boundaries).
Qed.

(** C7. [flood_pop_overlay] joins the boundaries with the population on
    the region code as an inner join: a boundary row and a population row
    are paired exactly when their codes are equal, so a row of either side
    without a partner is in no row of the joined data.  The joined rows are
    then intersected with the combined hazard polygons: every row of the
    result comes from one joined row and one hazard row, whose attributes
    it carries, with the geometry they have in common. *)
Theorem flood_pop_overlay_inner_join_then_intersection
    common self data before name after boundaries joined hazards rows (s : fs T) :
  overlay_contract overlay common ->
  files s !! pop_csv self = Some (Csv data) ->
  listing s !! regions_folder (country_iso3 self) = Some (before ++ name :: after)%list ->
  endswith name ".shp" = true ->
  Forall (fun n => endswith n ".shp" = false) after ->
  (forall n, n ∈ before -> endswith n ".shp" = true ->
     is_ok (snd (overlay_step overlay self data (regions_folder (country_iso3 self)) n s))
     = true) ->
  files s !! path_join (regions_folder (country_iso3 self)) name = Some (Shp boundaries) ->
  merge boundaries data "GID_1" = Ok joined ->
  pop_flood self s = (s, Ok hazards) ->
  overlay joined hazards = Ok rows ->
  flood_pop_overlay overlay self s = (s, Ok rows) /\
  (forall l r, mkMerged l r ∈ mg_rows joined <->
     l ∈ gdf_rows boundaries /\ r ∈ df_rows data /\ attrs l !! "GID_1" = r !! "GID_1") /\
  (forall l, (forall r, r ∈ df_rows data -> attrs l !! "GID_1" <> r !! "GID_1") ->
     forall m, m ∈ mg_rows joined -> m_boundary m <> l) /\
  (forall r, (forall l, l ∈ gdf_rows boundaries -> attrs l !! "GID_1" <> r !! "GID_1") ->
     forall m, m ∈ mg_rows joined -> m_population m <> r) /\
  (forall row, row ∈ rows <->
     o_joined row ∈ mg_rows joined /\ o_hazard row ∈ gdf_rows hazards /\
     common (geometry (m_boundary (o_joined row))) (geometry (o_hazard row))
     = Some (o_geometry row)).
Proof.
  intros Hcontract Hcsv Hlist Hname Hafter Hbefore Hshp Hm Hp Hov.
  pose proof (merge_rows _ _ _ _ Hm) as Hjoin.
  split; [|split; [exact Hjoin|split; [|split]]].
  - rewrite <- Hov. by apply (flood_pop_overlay_last self data before name after boundaries).
  - intros l Hl [l' r'] Hin <-. simpl in Hl.
    apply Hjoin in Hin as (_ & Hr & Hkey). by apply (Hl r').
  - intros r Hr [l' r'] Hin <-. simpl in Hr.
    apply Hjoin in Hin as (Hl & _ & Hkey). by apply (Hr l').
  - intros row. rewrite (Hcontract _ _ _ Hov row). apply overlay_pairs_rows.
Qed.

Lemma pop_flood_loop_raises folder names combined (s : fs T) e :
  snd (pop_flood_loop folder names combined s) = Raise e -> exn_class e = "DriverError".
Proof.
  revert combined. induction names as [|name rest IH]; intros combined; simpl; [done|].
  destruct (endswith name ".shp"); [|apply IH].
  unfold bind, read_file.
  destruct (files s !! path_join folder name) as [[]|]; simpl;
    try (by intros [= <-]).
  apply IH.
Qed.

Lemma pop_flood_raises self (s : fs T) e :
  snd (pop_flood self s) = Raise e ->
  exn_class e = "DriverError" \/ exn_class e = "FileNotFoundError".
Proof.
  unfold pop_flood, bind, listdir.
  destruct (listing s !! hazard_folder self "shapefiles").
  - intros Hr. left. by apply pop_flood_loop_raises in Hr.
  - intros [= <-]. by right.
Qed.

Lemma overlay_step_raises self data folder name (s : fs T) e :
  overlay_raises_no_OverlayError overlay ->
  snd (overlay_step overlay self data folder name s) = Raise e ->
  exn_class e <> "OverlayError".
Proof.
  intros Hlib. unfold overlay_step, bind, read_file, lift.
  destruct (files s !! path_join folder name) as [[]|]; simpl;
    try (by intros [= <-]).
  unfold merge.
  destruct (bool_decide ("GID_1" ∈ gdf_columns g)); simpl; [|by intros [= <-]].
  destruct (bool_decide ("GID_1" ∈ df_columns data)); simpl; [|by intros [= <-]].
  destruct (_ || _); simpl; [by intros [= <-]|].
  pose proof (pop_flood_raises self s) as Hp.
  destruct (pop_flood self s) as [s' [hazards|e']]; simpl in *.
  - apply Hlib.
  - intros [= <-]. by destruct (Hp e' eq_refl) as [-> | ->].
Qed.

Lemma flood_pop_overlay_loop_raises self data folder names acc (s : fs T) e :
  overlay_raises_no_OverlayError overlay ->
  snd (flood_pop_overlay_loop overlay self data folder names acc s) = Raise e ->
  exn_class e <> "OverlayError".
Proof.
  intros Hlib. revert acc. induction names as [|name rest IH]; intros acc; simpl.
  - destruct acc; simpl; [done|]. by intros [= <-].
  - destruct (endswith name ".shp"); [|apply IH].
    unfold bind.
    pose proof (overlay_step_state self data folder name s) as Hs.
    pose proof (overlay_step_raises self data folder name s) as Hr.
    destruct (overlay_step overlay self data folder name s) as [s' [i|e']];
      simpl in *; subst.
    + apply IH.
    + intros [= <-]. by apply Hr.
Qed.

(** No exception of a class [OverlayError] leaves the function. *)
Lemma flood_pop_overlay_raises self (s : fs T) e :
  overlay_raises_no_OverlayError overlay ->
  snd (flood_pop_overlay overlay self s) = Raise e -> exn_class e <> "OverlayError".
Proof.
  intros Hlib. unfold flood_pop_overlay, bind, read_csv, listdir.
  destruct (files s !! pop_csv self) as [[]|]; simpl; try (by intros [= <-]).
  destruct (listing s !! regions_folder (country_iso3 self)); simpl;
    [|by intros [= <-]].
  by apply flood_pop_overlay_loop_raises.
Qed.

Lemma overlay_pairs_nil_r common (left : list (merged_row T)) :
  overlay_pairs common left [] = [].
Proof. unfold overlay_pairs. by induction left as [|l left IH]. Qed.

(** Under the contract of the overlay, an overlay that returns for an empty
    collection returns no row. *)
Lemma overlay_of_empty common joined hazards rows :
  overlay_contract overlay common ->
  mg_rows joined = [] \/ gdf_rows hazards = [] ->
  overlay joined hazards = Ok rows ->
  rows = [].
Proof.
  intros Hcontract Hempty Hov.
  assert (overlay_pairs common (mg_rows joined) (gdf_rows hazards) = []) as Hnil.
  { destruct Hempty as [-> | ->]; [done|apply overlay_pairs_nil_r]. }
  destruct rows as [|row rows]; [done|].
  pose proof (proj1 (Hcontract _ _ _ Hov row) (list_elem_of_here _ _)) as Hin.
  rewrite Hnil in Hin. by apply elem_of_nil in Hin.
Qed.

(** C8 (as the code has it). [flood_pop_overlay] has no test for empty
    collections and no [OverlayError]: no exception of that class leaves it,
    and the joined rows and the hazard polygons, empty or not, go to the
    overlay as they are; what the overlay gives, a result or an exception,
    is what the function gives.  So a run with an empty collection either
    returns the empty result, whenever the overlay returns at all, or ends
    with the exception the overlay raised, which is no [OverlayError]. *)
Theorem flood_pop_overlay_passes_collections_on common :
  overlay_raises_no_OverlayError overlay ->
  overlay_contract overlay common ->
  (forall self (s : fs T) e,
     snd (flood_pop_overlay overlay self s) = Raise e -> exn_class e <> "OverlayError") /\
  (forall self data before name after boundaries joined hazards (s : fs T),
     files s !! pop_csv self = Some (Csv data) ->
     listing s !! regions_folder (country_iso3 self) = Some (before ++ name :: after)%list ->
     endswith name ".shp" = true ->
     Forall (fun n => endswith n ".shp" = false) after ->
     (forall n, n ∈ before -> endswith n ".shp" = true ->
        is_ok (snd (overlay_step overlay self data (regions_folder (country_iso3 self)) n s))
        = true) ->
     files s !! path_join (regions_folder (country_iso3 self)) name = Some (Shp boundaries) ->
     merge boundaries data "GID_1" = Ok joined ->
     pop_flood self s = (s, Ok hazards) ->
     flood_pop_overlay overlay self s = (s, overlay joined hazards) /\
     (mg_rows joined = [] \/ gdf_rows hazards = [] ->
      flood_pop_overlay overlay self s = (s, Ok []) \/
      exists e, flood_pop_overlay overlay self s = (s, Raise e) /\
                overlay joined hazards = Raise e /\
                exn_class e <> "OverlayError")).
Proof.
  intros Hlib Hcontract. split.
  - intros self s e. by apply flood_pop_overlay_raises.
  - intros self data before name after boundaries joined hazards s
           Hcsv Hlist Hname Hafter Hbefore Hshp Hm Hp.
    assert (flood_pop_overlay overlay self s = (s, overlay joined hazards)) as Hrun
      by by eapply flood_pop_overlay_last.
    split; [exact Hrun|]. intros Hempty. rewrite Hrun.
    destruct (overlay joined hazards) as [rows|e] eqn:Hov.
    + left. by rewrite (overlay_of_empty common joined hazards rows).
    + right. exists e. split; [done|]. split; [done|]. by apply (Hlib joined hazards).
Qed.






End FloodPopOverlay.

(** ** The theorems at work on the example *)

Section Examples.

(** A fact about each of the finitely many cells of a region. *)
Ltac by_cells Hin :=
  set_unfold in Hin;
  repeat (destruct Hin as [Hin|Hin]; [injection Hin as -> ->; reflexivity|]);
  destruct Hin.


Lemma traced_nodata_contract : shapes_contract World.nodata_2x2 World.traced_nodata.
Proof.
  exists [[(0, 0); (0, 1); (1, 0); (1, 1)]]%nat. split; [|split].
  - repeat constructor; try done.
    intros r c Hin. by_cells Hin.
  - apply (bool_decide_unpack _). by vm_compute.
  - intros [|[|r]] [|[|c]] [v Hv]; simpl in Hv; try done; set_solver.
Qed.

Lemma vectorize_emits_hazard_values_only_witness :
  Forall (fun ft => 0 < f_value ft /\ f_value ft <> 255)
    [mkFeature "Polygon" (mkGeo "Polygon" [[(10, 50); (10, 48); (12, 48); (12, 50); (10, 50)]]) 3]
  /\ [3] = List.filter (fun v => (0 <? v) && negb (v =? 255)) (map snd World.traced_2x2).
Proof.
  exact (vectorize_emits_hazard_values_only World.affine World.traced_2x2 _ eq_refl).
Defined.

Lemma vectorize_applies_affine_to_each_vertex_witness :
  Forall2 (fun vec ft =>
    exists exterior holes coords,
      gj_coordinates (fst vec) = exterior :: holes /\
      gj_coordinates (f_geometry ft) = [coords] /\
      length coords = length exterior /\
      forall (i : nat) x y, exterior !! i = Some (x, y) ->
        coords !! i = Some (affine_mul World.affine (x, y)) /\
        affine_mul World.affine (x, y)
        = (nadd (nadd (nmul x 2) (nmul y 0)) 10, nadd (nadd (nmul x 0) (nmul y (-2))) 50))
    (List.filter keeps World.traced_hole)
    [mkFeature "Polygon" (mkGeo "Polygon" [[(10, 50); (10, 44); (16, 44); (16, 50); (10, 50)]]) 5].
Proof.
  exact (vectorize_applies_affine_to_each_vertex World.affine World.traced_hole _ eq_refl).
Defined.


Lemma vectorize_uniform_nodata_witness :
  vectorize World.affine World.traced_nodata [] = Ok [].
Proof.
  apply (vectorize_uniform_nodata World.affine World.nodata_2x2 World.traced_nodata).
  - exact traced_nodata_contract.
  - intros [|[|r]] [|[|c]] v Hv; simpl in Hv; try done; by injection Hv.
Defined.

Lemma vectorize_keeps_exterior_ring_only_witness :
  Forall2 (fun vec ft =>
    gj_coordinates (f_geometry ft)
    = [map (affine_mul World.affine) (hd [] (gj_coordinates (fst vec)))] /\
    length (gj_coordinates (f_geometry ft)) = 1%nat)
    (List.filter keeps World.traced_hole)
    [mkFeature "Polygon" (mkGeo "Polygon" [[(10, 50); (10, 44); (16, 44); (16, 50); (10, 50)]]) 5].
Proof.
  exact (proj2 (vectorize_keeps_exterior_ring_only World.affine World.traced_hole) _ eq_refl).
Defined.

Lemma Rect_overlay_contract : overlay_contract Rect.overlay Rect.common.
Proof.
  intros a b rows. unfold Rect.overlay.
  destruct (mg_geom a && gdf_geom b); [|done]. by intros [= <-].
Qed.

Lemma Rect_overlay_no_OverlayError : overlay_raises_no_OverlayError Rect.overlay.
Proof.
  intros a b e. unfold Rect.overlay.
  destruct (mg_geom a && gdf_geom b); [done|]. by intros [= <-].
Qed.

(** A fact about each of the finitely many names of a folder. *)
Ltac by_names Hin Hend :=
  set_unfold in Hin;
  repeat (destruct Hin as [->|Hin];
          [first [discriminate Hend | eexists; by vm_compute | by vm_compute]|]);
  destruct Hin.

Lemma pop_flood_concatenates_witness :
  exists out, pop_flood World.self World.disk = (World.disk, Ok out) /\
    gdf_rows out
    = [World.polygon 3 (0, 3, 1, 4); World.polygon 7 (1, 2, 2, 3);
       World.polygon 3 (0, 3, 1, 4); World.polygon 9 (2, 0, 3, 1)] /\
    length (gdf_rows out) = (2 + 2)%nat.
Proof.
  destruct (pop_flood_concatenates World.self World.disk World.shapefiles_listing)
    as (out & Hout & Hrows & Hlen & _).
  - by vm_compute.
  - intros name Hin Hend. by_names Hin Hend.
  - exists out. split; [done|]. split; [by rewrite Hrows|by rewrite Hlen].
Defined.

Lemma flood_pop_overlay_inner_join_then_intersection_witness :
  flood_pop_overlay Rect.overlay World.self World.disk = (World.disk, Ok World.exposure) /\
  length World.exposure = 4%nat.
Proof.
  split; [|reflexivity].
  apply (flood_pop_overlay_inner_join_then_intersection Rect.overlay Rect.common
           World.self World.population ["gadm_1.dbf"] "gadm_1.shp" [] World.regions
           World.joined World.hazards World.exposure World.disk).
  - exact Rect_overlay_contract.
  - by vm_compute.
  - by vm_compute.
  - reflexivity.
  - constructor.
  - intros n Hin Hend. by_names Hin Hend.
  - by vm_compute.
  - by vm_compute.
  - by vm_compute.
  - by vm_compute.
Defined.

(** With a population file that shares no key with the boundaries the
    joined data are empty, and with a shapefile without records the hazard
    polygons are empty: either way the overlay runs and returns an empty
    result, no exception.  With a shapefile folder that holds no [.shp] the
    hazard polygons are the frame without geometry column, and the overlay
    raises [AttributeError].  And whatever the engine, as long as it has no
    [OverlayError] of its own, none leaves the function on these disks. *)
Lemma flood_pop_overlay_empty_collections_return :
  (merge World.regions World.strangers "GID_1" = Ok (mkMergedFrame true []) /\
   flood_pop_overlay Rect.overlay World.self World.disk_strangers
   = (World.disk_strangers, Ok []) /\
   pop_flood World.self World.disk_dry = (World.disk_dry, Ok (mkGdf true ["value"] [])) /\
   flood_pop_overlay Rect.overlay World.self World.disk_dry = (World.disk_dry, Ok [])) /\
  (pop_flood World.self Site.disk_leftovers = (Site.disk_leftovers, Ok empty_gdf) /\
   exists e,
     flood_pop_overlay Rect.overlay World.self Site.disk_leftovers
     = (Site.disk_leftovers, Raise e) /\ exn_class e = "AttributeError") /\
  (forall overlay e s,
     overlay_raises_no_OverlayError overlay ->
     s = World.disk_strangers \/ s = World.disk_dry \/ s = Site.disk_leftovers ->
     snd (flood_pop_overlay overlay World.self s) = Raise e ->
     exn_class e <> "OverlayError").
Proof.
  split; [by vm_compute|]. split.
  - split; [by vm_compute|]. eexists. split; by vm_compute.
  - intros overlay e s Hlib _. by apply flood_pop_overlay_raises.
Qed.

Lemma flood_pop_overlay_passes_collections_on_witness :
  flood_pop_overlay Rect.overlay World.self World.disk_strangers
  = (World.disk_strangers, Ok []).
Proof.
  destruct (proj2 (flood_pop_overlay_passes_collections_on Rect.overlay Rect.common
                     Rect_overlay_no_OverlayError Rect_overlay_contract)
              World.self World.strangers ["gadm_1.dbf"] "gadm_1.shp" [] World.regions
              (mkMergedFrame true []) World.hazards World.disk_strangers)
    as [Hrun Hempty].
  - by vm_compute.
  - by vm_compute.
  - reflexivity.
  - constructor.
  - intros n Hin Hend. by_names Hin Hend.
  - by vm_compute.
  - by vm_compute.
  - by vm_compute.
  - destruct Hempty as [Hok|(e & He & Hov & _)]; [by left|exact Hok|].
    vm_compute in Hov. discriminate Hov.
Defined.



End Examples.

(** * Further properties of the code *)

(** ** What a run leaves on the disk *)

Section OnlyAdds.
Context {T : Type} `{Num T}.

Lemma only_adds_same {A} (Q : file T -> Prop) (m : M (fs T) A) :
  (forall s, files (fst (m s)) = files s) -> only_adds Q m.
Proof. intros Hm s path f Hf. left. by rewrite <- Hm. Qed.

Lemma only_adds_bind {A B} (Q : file T -> Prop) (m : M (fs T) A) (k : A -> M (fs T) B) :
  only_adds Q m ->
  (forall s a, snd (m s) = Ok a -> only_adds Q (k a)) ->
  only_adds Q (bind m k).
Proof.
  intros Hm Hk s path f. unfold bind.
  specialize (Hm s path f). specialize (Hk s).
  destruct (m s) as [s1 [a|e]]; simpl in *; [|done].
  intros Hf. destruct (Hk a eq_refl s1 path f Hf) as [Hf1|HQ]; [by apply Hm|by right].
Qed.

Lemma only_adds_for_each {A} (Q : file T -> Prop) (xs : list A) (body : A -> M (fs T) unit) :
  (forall x, only_adds Q (body x)) -> only_adds Q (for_each xs body).
Proof.
  intros Hbody. induction xs as [|x xs IH]; simpl.
  - by apply only_adds_same.
  - apply only_adds_bind; [apply Hbody|]. intros. apply IH.
Qed.

Lemma only_adds_try (Q : file T -> Prop) (body : M (fs T) unit) :
  only_adds Q body -> only_adds Q (try_except_pass body).
Proof.
  intros Hb s path f. unfold try_except_pass. specialize (Hb s path f).
  by destruct (body s) as [s1 [[]|e]].
Qed.

Lemma only_adds_write_file (Q : file T -> Prop) folder name f :
  Q f -> only_adds Q (write_file folder name f).
Proof.
  intros HQ s path f'. unfold write_file. simpl.
  destruct (decide (path_join folder name = path)) as [<-|Hne].
  - rewrite lookup_insert_eq. intros [= <-]. by right.
  - rewrite lookup_insert_ne by done. by left.
Qed.

Lemma only_adds_ensure_dir (Q : file T -> Prop) folder :
  only_adds Q (ensure_dir folder).
Proof.
  apply only_adds_same. intros s. unfold ensure_dir, bind, get.
  by destruct (exists_dir folder s).
Qed.

Lemma only_adds_rasterio_open (Q : file T -> Prop) path mode :
  only_adds Q (rasterio_open path mode).
Proof.
  apply only_adds_same. intros s. unfold rasterio_open.
  by destruct (files s !! path) as [[]|].
Qed.

Lemma only_adds_lift {A} (Q : file T -> Prop) (r : result A) :
  only_adds Q (lift (S := fs T) r).
Proof. by apply only_adds_same. Qed.

End OnlyAdds.

(** ** [process_tif] as a whole *)

Section ProcessTifRuns.
Context {T : Type} `{Num T}.
Variable shapes : list (list Z) -> list (geojson T * Z).
Variable to_file_check : gdf T -> result unit.

(** The frame built from a list of features has one row for each of them,
    and is built only when there is one. *)
Lemma from_features_rows (out : list (feature T)) output :
  from_features out = Ok output ->
  (exists ft fts, out = ft :: fts) /\
  output = mkGdf true ["value"]
             (map (fun ft => mkRow {[ "value" := VInt (f_value ft) ]} (f_geometry ft)) out).
Proof.
  destruct out as [|ft fts]; [done|]. intros [= <-]. split; [by eexists _, _|done].
Qed.

Lemma from_features_hazard_frame affine traced out output :
  vectorize affine traced [] = Ok out ->
  from_features out = Ok output ->
  hazard_frame output.
Proof.
  intros Hv Hf. apply vectorize_Ok in Hv as [_ ->]. simpl in Hf.
  apply from_features_rows in Hf as [_ ->].
  unfold hazard_frame. simpl. rewrite map_map.
  apply Forall_forall. intros row Hin.
  apply list_elem_of_In, in_map_iff in Hin as (vec & <- & Hin).
  apply filter_In in Hin as [_ K]. apply keeps_spec in K as [Hpos Hne].
  simpl. eexists _, _. by rewrite lookup_singleton_eq.
Qed.

Lemma only_adds_to_file output folder stem :
  hazard_frame output ->
  only_adds vector_file (to_file to_file_check output folder stem).
Proof.
  intros Hg. unfold to_file.
  apply only_adds_bind; [apply only_adds_lift|]. intros _ _ _.
  apply only_adds_bind; [by apply only_adds_write_file|]. intros _ _ _.
  apply only_adds_for_each. intros ext. by apply only_adds_write_file.
Qed.

Lemma only_adds_process_tif_body self tifs :
  only_adds vector_file (process_tif_body shapes to_file_check self tifs).
Proof.
  unfold process_tif_body. destruct (endswith tifs ".tif"); [|by apply only_adds_same].
  apply only_adds_bind; [apply only_adds_ensure_dir|]. intros _ _ _.
  apply only_adds_bind; [apply only_adds_rasterio_open|]. intros _ src _.
  apply only_adds_bind; [apply only_adds_lift|]. intros _ array _.
  apply only_adds_bind; [apply only_adds_lift|]. intros s out Hv.
  apply only_adds_bind; [apply only_adds_lift|]. intros s' output Hf.
  apply only_adds_to_file.
  by apply (from_features_hazard_frame (ds_transform src) (shapes array) out).
Qed.

Lemma only_adds_process_tif self :
  only_adds vector_file (process_tif shapes to_file_check self).
Proof.
  unfold process_tif.
  apply only_adds_bind.
  - apply only_adds_same. intros s. unfold listdir. by destruct (listing s !! _).
  - intros _ names _. apply only_adds_for_each. intros tifs.
    apply only_adds_try, only_adds_process_tif_body.
Qed.

(** X1. [process_tif] fails only when the folder of clipped rasters is
    missing, and then changes nothing; once the folder is there, whatever
    goes wrong with a file (unreadable raster, shape without ring, refusal
    of the driver) is swallowed and the call ends normally. *)
Theorem process_tif_swallows_failures self (s : fs T) :
  (is_Some (listing s !! hazard_folder self "tifs") ->
   snd (process_tif shapes to_file_check self s) = Ok tt) /\
  (listing s !! hazard_folder self "tifs" = None ->
   process_tif shapes to_file_check self s
   = (s, Raise (Exn "FileNotFoundError" (hazard_folder self "tifs")))).
Proof.
  unfold process_tif, bind, listdir. split.
  - intros [names ->]. apply process_tif_never_raises.
  - by intros ->.
Qed.

(** X2. [process_tif] writes shapefiles and nothing else: a raster or a
    table found on the disk after the run was there before, unchanged. *)
Theorem process_tif_writes_no_raster self (s : fs T) path f :
  files (fst (process_tif shapes to_file_check self s)) !! path = Some f ->
  (exists d, f = Tif d) \/ (exists d, f = Csv d) ->
  files s !! path = Some f.
Proof.
  intros Hf Hkind. destruct (only_adds_process_tif self s path f Hf) as [|HQ]; [done|].
  by destruct Hkind as [[d ->]|[d ->]].
Qed.

(** X3. Every shapefile that [process_tif] leaves on the disk, other than
    those that were there already, holds hazard polygons only: each record
    has a value above 0 and other than 255, and a polygon of one ring. *)
Theorem process_tif_persists_hazard_polygons self (s : fs T) path g :
  files (fst (process_tif shapes to_file_check self s)) !! path = Some (Shp g) ->
  files s !! path = Some (Shp g) \/
  Forall (fun row =>
    exists v ring, attrs row !! "value" = Some (VInt v) /\ 0 < v /\ v <> 255 /\
                   geometry row = mkGeo "Polygon" [ring]) (gdf_rows g).
Proof. intros Hf. exact (only_adds_process_tif self s path (Shp g) Hf). Qed.

(** X4. Names of the folder that do not end in [.tif] are passed over: the
    run is the run on the [.tif] names alone. *)
Theorem process_tif_reads_tif_names_only self (s : fs T) names :
  listing s !! hazard_folder self "tifs" = Some names ->
  process_tif shapes to_file_check self s
  = for_each (List.filter (fun name => endswith name ".tif") names)
      (fun tifs => try_except_pass (process_tif_body shapes to_file_check self tifs)) s.
Proof.
  intros Hl. unfold process_tif, bind, listdir. rewrite Hl. clear Hl. revert s.
  induction names as [|name rest IH]; intros s; simpl; [done|].
  destruct (endswith name ".tif") eqn:E; simpl.
  - unfold bind. destruct (try_except_pass _ s) as [s1 [[]|e]]; [apply IH|done].
  - unfold bind, try_except_pass, process_tif_body. rewrite E. simpl. apply IH.
Qed.

Lemma uniform_nodata_keeps_nothing array (traced : list (geojson T * Z)) :
  shapes_contract array traced ->
  (forall r c v, cell_value array r c = Some v -> v = 255) ->
  List.filter keeps traced = [].
Proof.
  intros Hc Hu.
  assert (forall vec, vec ∈ traced -> keeps vec = false) as Hk.
  { intros vec Hin. destruct (traced_value_in_array _ _ _ Hc Hin) as (r & c & Hv).
    apply Hu in Hv. unfold keeps. by rewrite Hv. }
  clear Hc. induction traced as [|vec rest IH]; simpl; [done|].
  rewrite (Hk vec) by by left. apply IH. intros v Hv. apply Hk. by right.
Qed.

(** X5. For a clipped raster that holds no-data only, the loop of
    [process_tif] keeps no shape, and building the frame from the empty list
    of features raises [ValueError] before [to_file] is reached: no
    shapefile is written for that raster (the folder of the shapefiles is
    made if it was missing), and the [try] swallows the exception. *)
Theorem process_tif_body_all_nodata self name src array (s : fs T) :
  endswith name ".tif" = true ->
  files s !! path_join (hazard_folder self "tifs") (splitext_root name ++ ".tif")
  = Some (Tif src) ->
  read_band1 src = Ok array ->
  shapes_contract array (shapes array) ->
  (forall r c v, cell_value array r c = Some v -> v = 255) ->
  let after := process_tif_body shapes to_file_check self name s in
  (exists e, snd after = Raise e /\ exn_class e = "ValueError") /\
  fst after = fst (ensure_dir (hazard_folder self "shapefiles") s) /\
  files (fst after) = files s /\
  try_except_pass (process_tif_body shapes to_file_check self name) s = (fst after, Ok tt).
Proof.
  intros Hname Hfile Hband Hc Hu after.
  assert (vectorize (ds_transform src) (shapes array) [] = Ok []) as Hv.
  { apply vectorize_Ok. by rewrite (uniform_nodata_keeps_nothing _ _ Hc Hu). }
  pose proof (process_tif_body_traced shapes to_file_check self name src array s
                Hname Hfile Hband) as Hbody.
  rewrite Hv in Hbody. simpl in Hbody.
  unfold try_except_pass, after. rewrite Hbody. simpl.
  split; [by eexists|]. split; [done|]. split; [apply ensure_dir_files|done].
Qed.

End ProcessTifRuns.

(** ** The name under which [process_tif] opens a raster *)

Section ListedNames.

Lemma substring_all s : substring 0 (String.length s) s = s.
Proof. induction s as [|ch s IH]; simpl; [done|]. by rewrite IH. Qed.

Lemma substring_split s (n : nat) :
  (n <= String.length s)%nat ->
  substring 0 n s ++ substring n (String.length s - n) s = s.
Proof.
  revert n. induction s as [|ch s IH]; intros [|n] Hn; simpl in *; try done; try lia.
  - by rewrite substring_all.
  - change (String ch (substring 0 n s ++ substring n (String.length s - n) s)
            = String ch s).
    by rewrite IH by lia.
Qed.

(** X6. [process_tif] cuts the extension off a listed name and puts [.tif]
    back: this gives the listed name again, except for a name made of dots
    before [tif] (such as [.tif]), which has no extension to cut and is
    looked up with a second [.tif] added. *)
Theorem process_tif_reopens_listed_name name :
  endswith name ".tif" = true ->
  (all_dots (substring 0 (String.length name - 4) name) = false ->
   splitext_root name ++ ".tif" = name) /\
  (all_dots (substring 0 (String.length name - 4) name) = true ->
   splitext_root name ++ ".tif" = name ++ ".tif").
Proof.
  intros Hend. unfold splitext_root. split; intros ->; [|done].
  unfold endswith in Hend. apply andb_true_iff in Hend as [Hlen Hsuffix].
  apply Nat.leb_le in Hlen. apply String.eqb_eq in Hsuffix. simpl in Hlen, Hsuffix.
  rewrite <- Hsuffix.
  pose proof (substring_split name (String.length name - 4)) as Hsplit.
  replace (String.length name - (String.length name - 4))%nat with 4%nat in Hsplit by lia.
  apply Hsplit. lia.
Qed.

Lemma process_tif_reopens_listed_name_witness :
  splitext_root "USA.1_1.tif" ++ ".tif" = "USA.1_1.tif" /\
  splitext_root ".tif" ++ ".tif" = ".tif.tif".
Proof.
  split.
  - exact (proj1 (process_tif_reopens_listed_name "USA.1_1.tif" eq_refl) eq_refl).
  - exact (proj2 (process_tif_reopens_listed_name ".tif" eq_refl) eq_refl).
Defined.

End ListedNames.

(** ** [process_flood_tiff] beside the case of a region off the raster *)

Section ClipperRuns.
Context {T : Type} `{Num T}.
Variable mask : dataset T -> list (geojson T) -> bool -> result (image * Affine T).

(** X7. Rows of the countries file that name another country are passed
    over: when no row names the country of [self], [process_flood_tiff]
    ends normally without reading a boundary or a raster and leaves the
    disk as it was. *)
Theorem process_flood_tiff_skips_other_countries self countries (s : fs T) :
  files s !! csv_filename self = Some (Csv countries) ->
  "iso3" ∈ df_columns countries ->
  Forall (fun country => country !! "iso3" <> Some (VStr (country_iso3 self)))
         (df_rows countries) ->
  process_flood_tiff mask self s = (s, Ok tt).
Proof.
  intros Hcsv Hcol Hrows. unfold process_flood_tiff, bind, read_csv. rewrite Hcsv.
  induction Hrows as [|country rest Hne _ IH]; simpl; [done|].
  unfold bind. unfold clip_country at 1. unfold bind, lift, getitem.
  rewrite bool_decide_eq_true_2 by done.
  rewrite (bool_decide_eq_false_2 _ Hne). simpl. exact IH.
Qed.

(** X8. When the mask gives a window for a region whose code is a text
    without path separator, [clip_region] stores the window under that code
    as [<code>.tif]: a GTiff with the window's shape and transform, the band
    count of the hazard raster, no-data 255 and the reference system written
    as [epsg:4326], whatever the hazard raster said of its own no-data and
    reference system. *)
Theorem clip_region_stores_window
    self columns gid_level region code hazard out_img out_transform (s : fs T) :
  gid_level ∈ columns ->
  attrs region !! gid_level = Some (VStr code) ->
  plain_name code = true ->
  files s !! hazard_path self = Some (Tif hazard) ->
  is_Some (ds_crs hazard) ->
  mask (with_nodata hazard 255) [geometry region] true = Ok (out_img, out_transform) ->
  let after := clip_region mask self columns gid_level region s in
  let name := code ++ ".tif" in
  snd after = Ok tt /\
  files (fst after) !! path_join (hazard_folder self "tifs") name
  = Some (Tif (mkDataset "GTiff" (Some 255) (Some "epsg:4326") out_transform
                 (im_height out_img) (im_width out_img) (ds_count hazard)
                 (im_data out_img))) /\
  (exists names, listing (fst after) !! hazard_folder self "tifs" = Some names /\
                 name ∈ names).
Proof.
  intros Hcol Hcode _ Hfile [crs Hcrs] Hmask. cbv zeta.
  unfold clip_region, bind, lift, getitem.
  rewrite bool_decide_eq_true_2 by done.
  unfold rasterio_open. fold (hazard_path self). rewrite Hfile.
  unfold set_nodata. fold (with_nodata hazard 255).
  unfold crs_from_epsg. simpl. rewrite Hcrs, Hmask, Hcode. simpl.
  unfold ensure_dir, bind, get.
  destruct (exists_dir _ _); simpl; rewrite !lookup_insert_eq;
    (split; [done|split; [done|]]); eexists; (split; [done|]);
    case_bool_decide; set_solver.
Qed.

(** X9. The column read from a region is [GID_<level>] with the level set in
    the countries file: when the boundaries of the country have regions but
    not that column, [process_flood_tiff] raises [KeyError] on it at the
    first region, before the hazard raster is opened, and writes nothing. *)
Theorem process_flood_tiff_missing_level_column
    self countries cpre country cpost regions region rest (s s0 : fs T) :
  files s !! csv_filename self = Some (Csv countries) ->
  df_rows countries = (cpre ++ country :: cpost)%list ->
  for_each cpre (clip_country mask self (df_columns countries)) s = (s0, Ok tt) ->
  "iso3" ∈ df_columns countries ->
  "gid_region" ∈ df_columns countries ->
  country !! "iso3" = Some (VStr (country_iso3 self)) ->
  files s0 !! path_join (regions_folder (country_iso3 self))
                        ("gadm_" ++ str (country !! "gid_region") ++ ".shp")
  = Some (Shp regions) ->
  gdf_rows regions = region :: rest ->
  "GID_" ++ str (country !! "gid_region") ∉ gdf_columns regions ->
  process_flood_tiff mask self s
  = (s0, Raise (Exn "KeyError" ("GID_" ++ str (country !! "gid_region")))).
Proof.
  intros Hcsv Hrows Hcpre Hiso Hgid Hcountry Hshp Hregions Hno.
  unfold process_flood_tiff, bind, read_csv. rewrite Hcsv, Hrows.
  rewrite for_each_app, Hcpre. simpl for_each. unfold bind.
  rewrite (clip_country_matching _ _ _ _ regions) by done.
  rewrite Hregions. simpl for_each. unfold bind.
  unfold clip_region at 1. unfold bind, lift, getitem.
  by rewrite bool_decide_eq_false_2.
Qed.

End ClipperRuns.

(** ** The traced loop and shapes without ring *)

Section RinglessShapes.
Context {T : Type} `{Num T}.

(** X10. The loop of [process_tif] indexes the first ring of the shapes it
    keeps, and of those only: it raises [IndexError] when a kept shape has
    no ring, and succeeds when every kept shape has one, whatever the
    dropped shapes look like. *)
Theorem vectorize_indexes_kept_shapes_only (affine : Affine T) traced :
  (Exists (fun vec => keeps vec = true /\ gj_coordinates (fst vec) = []) traced ->
   vectorize affine traced [] = Raise (Exn "IndexError" "list index out of range")) /\
  (Forall (fun vec => keeps vec = true -> gj_coordinates (fst vec) <> []) traced ->
   exists out, vectorize affine traced [] = Ok out /\
               length out = length (List.filter keeps traced)).
Proof.
  split.
  - intros Hex. destruct (vectorize affine traced []) as [out|e] eqn:Hv.
    + apply vectorize_Ok in Hv as [HF _]. exfalso.
      apply Exists_exists in Hex as (vec & Hin & K & Hnil).
      rewrite Forall_forall in HF. apply (HF vec); [|done].
      apply list_elem_of_In, filter_In. by rewrite <- list_elem_of_In.
    + by apply vectorize_Raise in Hv as [-> _].
  - intros HF. eexists. split.
    + apply vectorize_Ok. split; [|done].
      apply Forall_forall. intros vec Hin.
      apply list_elem_of_In, filter_In in Hin as [Hin K].
      rewrite Forall_forall in HF. apply HF; [by apply list_elem_of_In|done].
    + simpl. by rewrite length_map.
Qed.

End RinglessShapes.

(** ** [pop_flood] and [flood_pop_overlay] when something is missing *)

Section OverlayRuns.
Context {T : Type} `{Num T}.
Variable overlay : merged T -> gdf T -> result (list (overlay_row T)).

Lemma flood_pop_overlay_loop_state self data folder names acc (s : fs T) :
  fst (flood_pop_overlay_loop overlay self data folder names acc s) = s.
Proof.
  revert acc. induction names as [|name rest IH]; intros acc; simpl.
  - by destruct acc.
  - destruct (endswith name ".shp"); [|apply IH]. unfold bind.
    pose proof (overlay_step_state overlay self data folder name s) as Hs.
    destruct (overlay_step overlay self data folder name s) as [s1 [i|e]];
      simpl in Hs; subst; [apply IH|done].
Qed.

(** X11. [pop_flood] and [flood_pop_overlay] only read: whatever they
    return or raise, the disk is as it was before the call. *)
Theorem overlay_functions_only_read self (s : fs T) :
  fst (pop_flood self s) = s /\ fst (flood_pop_overlay overlay self s) = s.
Proof.
  split; [apply pop_flood_state|].
  unfold flood_pop_overlay, bind, read_csv, listdir.
  destruct (files s !! pop_csv self) as [[]|]; try done.
  destruct (listing s !! regions_folder (country_iso3 self)); [|done].
  apply flood_pop_overlay_loop_state.
Qed.

(** X12. When the regions folder holds no [.shp], the loop of
    [flood_pop_overlay] never binds [intersection], and the [return] raises
    [UnboundLocalError]. *)
Theorem flood_pop_overlay_without_boundaries self data names (s : fs T) :
  files s !! pop_csv self = Some (Csv data) ->
  listing s !! regions_folder (country_iso3 self) = Some names ->
  Forall (fun name => endswith name ".shp" = false) names ->
  flood_pop_overlay overlay self s = (s, Raise (Exn "UnboundLocalError" "intersection")).
Proof.
  intros Hcsv Hlist Hnames. unfold flood_pop_overlay, bind, read_csv, listdir.
  rewrite Hcsv, Hlist. clear Hlist.
  induction Hnames as [|name rest Hn _ IH]; simpl; [done|]. by rewrite Hn.
Qed.

(** X13. The loop of [flood_pop_overlay] has no [try]: the first [.shp] of
    the regions folder whose step raises ends the call with that exception,
    whatever shapefiles are listed after it. *)
Theorem flood_pop_overlay_stops_at_first_failure
    self data before name after e (s : fs T) :
  files s !! pop_csv self = Some (Csv data) ->
  listing s !! regions_folder (country_iso3 self) = Some (before ++ name :: after)%list ->
  (forall n, n ∈ before -> endswith n ".shp" = true ->
     is_ok (snd (overlay_step overlay self data (regions_folder (country_iso3 self)) n s))
     = true) ->
  endswith name ".shp" = true ->
  snd (overlay_step overlay self data (regions_folder (country_iso3 self)) name s)
  = Raise e ->
  flood_pop_overlay overlay self s = (s, Raise e).
Proof.
  intros Hcsv Hlist Hbefore Hname Hstep.
  unfold flood_pop_overlay, bind, read_csv, listdir. rewrite Hcsv, Hlist.
  clear Hlist. revert Hbefore.
  generalize (@None (list (overlay_row T))) as acc.
  induction before as [|n before IH]; intros acc Hbefore; simpl.
  - rewrite Hname. unfold bind.
    pose proof (overlay_step_state overlay self data
                  (regions_folder (country_iso3 self)) name s) as Hs.
    destruct (overlay_step overlay self data _ name s) as [s1 r]; simpl in *.
    by subst.
  - destruct (endswith n ".shp") eqn:E.
    + unfold bind.
      pose proof (overlay_step_state overlay self data
                    (regions_folder (country_iso3 self)) n s) as Hs.
      pose proof (Hbefore n (list_elem_of_here _ _) E) as Hok.
      destruct (overlay_step overlay self data _ n s) as [s1 [i|e']];
        simpl in Hs, Hok; subst; [|done].
      apply IH. intros m Hm. apply Hbefore. by right.
    + apply IH. intros m Hm. apply Hbefore. by right.
Qed.

(** X14. [pop_flood] has no [try] either, and starts from a frame without
    any column: a missing shapefile folder raises [FileNotFoundError], a
    folder without [.shp] gives that first frame back ([gpd.GeoDataFrame()],
    no record, no geometry column), and a [.shp] that cannot be read raises
    once the shapefiles listed before it are read. *)
Theorem pop_flood_when_files_are_missing self (s : fs T) :
  (listing s !! hazard_folder self "shapefiles" = None ->
   pop_flood self s = (s, Raise (Exn "FileNotFoundError" (hazard_folder self "shapefiles")))) /\
  (forall names,
     listing s !! hazard_folder self "shapefiles" = Some names ->
     Forall (fun name => endswith name ".shp" = false) names ->
     pop_flood self s = (s, Ok empty_gdf)) /\
  (forall before name after,
     listing s !! hazard_folder self "shapefiles" = Some (before ++ name :: after)%list ->
     (forall n, n ∈ before -> endswith n ".shp" = true ->
        exists g, files s !! path_join (hazard_folder self "shapefiles") n = Some (Shp g)) ->
     endswith name ".shp" = true ->
     (forall g, files s !! path_join (hazard_folder self "shapefiles") name <> Some (Shp g)) ->
     pop_flood self s
     = (s, Raise (Exn "DriverError" (path_join (hazard_folder self "shapefiles") name)))).
Proof.
  unfold pop_flood, bind, listdir. split; [|split].
  - by intros ->.
  - intros names -> Hnames. generalize (@empty_gdf T) as combined.
    induction Hnames as [|name rest Hn _ IH]; intros combined; simpl; [done|].
    rewrite Hn. apply IH.
  - intros before name after -> Hbefore Hname Hbad. revert Hbefore.
    generalize (@empty_gdf T) as combined.
    induction before as [|n before IH]; intros combined Hbefore; simpl.
    + rewrite Hname. unfold bind, read_file.
      destruct (files s !! path_join _ name) as [[d|g|d|]|] eqn:E; try done.
      by destruct (Hbad g).
    + destruct (endswith n ".shp") eqn:E.
      * destruct (Hbefore n (list_elem_of_here _ _) E) as [g Hg].
        unfold bind, read_file. rewrite Hg. apply IH.
        intros m Hm. apply Hbefore. by right.
      * apply IH. intros m Hm. apply Hbefore. by right.
Qed.

Lemma filter_none {A} (P : A -> Prop) `{forall x, Decision (P x)} (l : list A) :
  (forall x, x ∈ l -> ~ P x) -> filter P l = [].
Proof.
  induction l as [|x l IH]; intros Hl; [done|].
  rewrite filter_cons_False by (apply Hl; by left).
  apply IH. intros y Hy. apply Hl. by right.
Qed.

Lemma filter_key_length (rows : list (gmap string val)) on (key : option val) :
  NoDup (map (fun r => r !! on) rows) ->
  (length (filter (fun r => key = r !! on) rows) <= 1)%nat.
Proof.
  induction rows as [|r rows IH]; intros ND; simpl in *; [cbn; lia|].
  apply NoDup_cons in ND as [Hnin ND]. rewrite filter_cons.
  destruct (decide (key = r !! on)) as [->|Hne]; [|by apply IH].
  simpl. assert (filter (fun r' => r !! on = r' !! on) rows = []) as ->; [|simpl; lia].
  apply filter_none. intros r' Hr' Heq.
  apply Hnin. rewrite Heq. apply list_elem_of_In, in_map, list_elem_of_In, Hr'.
Qed.

(** X15. The join keeps one row for every pair of equal keys: when no key
    occurs twice in the population file, the joined data have no more rows
    than there are boundaries, and for every code no more rows than there
    are boundaries with that code. *)
Theorem merge_unique_population_keys (left : gdf T) (right : df) on joined :
  merge left right on = Ok joined ->
  NoDup (map (fun r => r !! on) (df_rows right)) ->
  (length (mg_rows joined) <= length (gdf_rows left))%nat /\
  (forall key : option val,
     length (List.filter (fun m => bool_decide (attrs (m_boundary m) !! on = key))
                         (mg_rows joined))
     <= length (List.filter (fun l => bool_decide (attrs l !! on = key))
                            (gdf_rows left)))%nat.
Proof.
  unfold merge. intros Hm ND.
  destruct (bool_decide (on ∈ gdf_columns left)); [|done].
  destruct (bool_decide (on ∈ df_columns right)); [|done].
  simpl in Hm. destruct (_ || _) in Hm; [done|].
  injection Hm as <-. simpl. split.
  - induction (gdf_rows left) as [|l rows IH]; simpl; [done|].
    rewrite length_app, length_map.
    pose proof (filter_key_length (df_rows right) on (attrs l !! on) ND). lia.
  - intros key. induction (gdf_rows left) as [|l rows IH]; simpl; [done|].
    rewrite List.filter_app, length_app.
    pose proof (filter_key_length (df_rows right) on (attrs l !! on) ND) as Hone.
    destruct (bool_decide (attrs l !! on = key)) eqn:E; simpl.
    + pose proof (List.filter_length_le
                    (fun m => bool_decide (attrs (m_boundary m) !! on = key))
                    (map (mkMerged l) (filter (fun r => attrs l !! on = r !! on)
                                                (df_rows right)))) as Hle.
      rewrite length_map in Hle. lia.
    + assert (List.filter
                (fun m => bool_decide (attrs (m_boundary m) !! on = key))
                (map (mkMerged l) (filter (fun r => attrs l !! on = r !! on)
                                            (df_rows right))) = []) as ->; [|simpl; lia].
      clear Hone IH.
      induction (filter _ (df_rows right)) as [|r rs IHr]; simpl; [done|].
      rewrite E. exact IHr.
Qed.

End OverlayRuns.

(** ** The further properties at work on the examples *)

Section FurtherExamples.

(** A fact about each of the finitely many names listed in a folder. *)
Ltac by_listed Hin Hend :=
  set_unfold in Hin;
  repeat (destruct Hin as [->|Hin];
          [first [discriminate Hend | eexists; by vm_compute]|]);
  destruct Hin.

Lemma process_tif_swallows_failures_witness :
  snd (process_tif Site.tracer Site.driver World.self Site.disk) = Ok tt /\
  process_tif Site.tracer Site.driver World.self World.disk
  = (World.disk, Raise (Exn "FileNotFoundError" "data/processed/USA/hazards/inunriver/tifs")).
Proof.
  split.
  - apply (proj1 (process_tif_swallows_failures Site.tracer Site.driver World.self Site.disk)).
    vm_compute. by eexists.
  - apply (proj2 (process_tif_swallows_failures Site.tracer Site.driver World.self World.disk)).
    by vm_compute.
Defined.

Lemma process_tif_writes_no_raster_witness :
  files Site.disk !! "data/processed/USA/hazards/inunriver/tifs/USA.1_1.tif"
  = Some (Tif Site.clipped).
Proof.
  apply (process_tif_writes_no_raster Site.tracer Site.driver World.self).
  - by vm_compute.
  - left. by eexists.
Defined.

Lemma process_tif_persists_hazard_polygons_witness :
  let row := mkRow {[ "value" := VInt 3 ]}
               (mkGeo "Polygon" [[(10, 50); (10, 48); (12, 48); (12, 50); (10, 50)]]) in
  files Site.disk !! "data/processed/USA/hazards/inunriver/shapefiles/USA.1_1.shp"
  = Some (Shp (mkGdf true ["value"] [row])) \/
  Forall (fun row =>
    exists v ring, attrs row !! "value" = Some (VInt v) /\ 0 < v /\ v <> 255 /\
                   geometry row = mkGeo "Polygon" [ring]) [row].
Proof.
  apply (process_tif_persists_hazard_polygons Site.tracer Site.driver World.self Site.disk
           "data/processed/USA/hazards/inunriver/shapefiles/USA.1_1.shp"
           (mkGdf true ["value"]
              [mkRow {[ "value" := VInt 3 ]}
                 (mkGeo "Polygon" [[(10, 50); (10, 48); (12, 48); (12, 50); (10, 50)]])])).
  by vm_compute.
Defined.

Lemma process_tif_reads_tif_names_only_witness :
  process_tif Site.tracer Site.driver World.self Site.disk
  = for_each ["USA.1_1.tif"; "USA.2_1.tif"; ".tif"; "USA.9_1.tif"]
      (fun tifs => try_except_pass
                     (process_tif_body Site.tracer Site.driver World.self tifs)) Site.disk.
Proof.
  apply (process_tif_reads_tif_names_only Site.tracer Site.driver World.self Site.disk
           Site.tifs_listing).
  by vm_compute.
Defined.

Lemma process_tif_body_all_nodata_witness :
  (exists e,
     snd (process_tif_body Site.tracer Site.driver World.self "USA.2_1.tif" Site.disk)
     = Raise e /\ exn_class e = "ValueError") /\
  fst (process_tif_body Site.tracer Site.driver World.self "USA.2_1.tif" Site.disk)
  = fst (ensure_dir (hazard_folder World.self "shapefiles") Site.disk) /\
  files (fst (process_tif_body Site.tracer Site.driver World.self "USA.2_1.tif" Site.disk))
  = files Site.disk /\
  try_except_pass (process_tif_body Site.tracer Site.driver World.self "USA.2_1.tif")
    Site.disk
  = (fst (process_tif_body Site.tracer Site.driver World.self "USA.2_1.tif" Site.disk),
     Ok tt).
Proof.
  exact (process_tif_body_all_nodata Site.tracer Site.driver World.self
           "USA.2_1.tif" Site.dry World.nodata_2x2 Site.disk
           eq_refl ltac:(by vm_compute) eq_refl traced_nodata_contract
           ltac:(intros [|[|r]] [|[|c]] v Hv; simpl in Hv; try done;
                 by injection Hv)).
Defined.

Lemma process_flood_tiff_skips_other_countries_witness :
  process_flood_tiff Rect.mask World.self Site.disk_abroad = (Site.disk_abroad, Ok tt).
Proof.
  apply (process_flood_tiff_skips_other_countries Rect.mask World.self
           (mkDf ["iso3"; "gid_region"] [World.ken])).
  - by vm_compute.
  - set_solver.
  - repeat constructor. by vm_compute.
Defined.

Lemma clip_region_stores_window_witness :
  files (fst (clip_region Rect.mask World.self ["GID_1"] "GID_1" World.usa3 World.disk))
    !! "data/processed/USA/hazards/inunriver/tifs/USA.3_1.tif"
  = Some (Tif (mkDataset "GTiff" (Some 255) (Some "epsg:4326") (mkAffine 1 0 1 0 (-1) 2)
                 2%nat 2%nat 1%nat [[[10; 11]; [14; 15]]])).
Proof.
  apply (clip_region_stores_window Rect.mask World.self ["GID_1"] "GID_1" World.usa3
           "USA.3_1" World.hazard
           (mkImage 1%nat 2%nat 2%nat [[[10; 11]; [14; 15]]]) (mkAffine 1 0 1 0 (-1) 2)
           World.disk).
  - set_solver.
  - by vm_compute.
  - reflexivity.
  - by vm_compute.
  - by eexists.
  - by vm_compute.
Defined.

Lemma process_flood_tiff_missing_level_column_witness :
  process_flood_tiff Rect.mask World.self Site.disk_level_mismatch
  = (Site.disk_level_mismatch, Raise (Exn "KeyError" "GID_2")).
Proof.
  rewrite (process_flood_tiff_missing_level_column Rect.mask World.self
             World.countries_level2 []
             {[ "iso3" := VStr "USA"; "gid_region" := VInt 2 ]} []
             World.regions World.usa1 [World.usa2; World.usa3]
             Site.disk_level_mismatch Site.disk_level_mismatch).
  - by vm_compute.
  - by vm_compute.
  - reflexivity.
  - reflexivity.
  - set_solver.
  - set_solver.
  - by vm_compute.
  - by vm_compute.
  - reflexivity.
  - vm_compute. intros Hin. apply list_elem_of_singleton in Hin. discriminate Hin.
Defined.

Lemma vectorize_indexes_kept_shapes_only_witness :
  vectorize World.affine Site.ringless_kept []
  = Raise (Exn "IndexError" "list index out of range") /\
  (exists out, vectorize World.affine Site.ringless_dropped [] = Ok out /\
               length out = 1%nat).
Proof.
  split.
  - apply (proj1 (vectorize_indexes_kept_shapes_only World.affine Site.ringless_kept)).
    right. left. by vm_compute.
  - apply (proj2 (vectorize_indexes_kept_shapes_only World.affine Site.ringless_dropped)).
    repeat constructor; by vm_compute.
Defined.

Lemma flood_pop_overlay_without_boundaries_witness :
  flood_pop_overlay Rect.overlay World.self Site.disk_no_boundaries
  = (Site.disk_no_boundaries, Raise (Exn "UnboundLocalError" "intersection")).
Proof.
  apply (flood_pop_overlay_without_boundaries Rect.overlay World.self World.population
           ["gadm_1.dbf"; "gadm_1.prj"]).
  - by vm_compute.
  - by vm_compute.
  - by repeat constructor.
Defined.

Lemma flood_pop_overlay_stops_at_first_failure_witness :
  flood_pop_overlay Rect.overlay World.self Site.disk_outline
  = (Site.disk_outline, Raise (Exn "KeyError" "GID_1")).
Proof.
  apply (flood_pop_overlay_stops_at_first_failure Rect.overlay World.self World.population
           [] "national_outline.shp" ["gadm_1.shp"]).
  - by vm_compute.
  - by vm_compute.
  - intros n Hn. by apply elem_of_nil in Hn.
  - reflexivity.
  - by vm_compute.
Defined.

Lemma pop_flood_when_files_are_missing_witness :
  pop_flood World.self Site.disk
  = (Site.disk,
     Raise (Exn "FileNotFoundError" "data/processed/USA/hazards/inunriver/shapefiles")) /\
  pop_flood World.self Site.disk_leftovers = (Site.disk_leftovers, Ok empty_gdf) /\
  pop_flood World.self Site.disk_torn
  = (Site.disk_torn,
     Raise (Exn "DriverError"
              "data/processed/USA/hazards/inunriver/shapefiles/USA.5_1.shp")).
Proof.
  split; [|split].
  - apply (proj1 (pop_flood_when_files_are_missing World.self Site.disk)).
    by vm_compute.
  - apply (proj1 (proj2 (pop_flood_when_files_are_missing World.self Site.disk_leftovers))
             ["USA.1_1.shx"; "USA.1_1.dbf"]).
    + by vm_compute.
    + by repeat constructor.
  - apply (proj2 (proj2 (pop_flood_when_files_are_missing World.self Site.disk_torn))
             ["USA.1_1.shp"] "USA.5_1.shp" ["USA.3_1.shp"]).
    + by vm_compute.
    + intros n Hin Hend. by_listed Hin Hend.
    + reflexivity.
    + intros g. by vm_compute.
Defined.

Lemma merge_unique_population_keys_witness :
  (length (mg_rows World.joined) <= length (gdf_rows World.regions))%nat.
Proof.
  apply (proj1 (merge_unique_population_keys World.regions World.population "GID_1"
                  World.joined ltac:(by vm_compute)
                  ltac:(apply (bool_decide_unpack _); by vm_compute))).
Defined.

End FurtherExamples.

(** ** The batch script *)

Section RunnerRuns.
Context {S : Type}.
Variable coast_process_flood_tiff : string -> string -> string -> M S unit.
Variable coast_process_flood_shapefile : string -> string -> string -> M S unit.
Variable pop_cozard : string -> string -> string -> M S unit.
Variable coverage_cozard : string -> string -> string -> M S unit.

Local Abbreviation item :=
  (run_item coast_process_flood_tiff coast_process_flood_shapefile
            pop_cozard coverage_cozard).
Local Abbreviation runner :=
  (all_runner coast_process_flood_tiff coast_process_flood_shapefile
              pop_cozard coverage_cozard).

Lemma for_each_try_never_raises {A} (xs : list A) (body : A -> M S unit) (s : S) :
  snd (for_each xs (fun x => try_except_pass (body x)) s) = Ok tt.
Proof.
  revert s. induction xs as [|x xs IH]; intros s; simpl; [done|].
  unfold bind, try_except_pass. destruct (body x s) as [s1 [[]|e]]; apply IH.
Qed.

(** X16. The batch never raises, and no failure keeps an item from being
    tried: the run is the run of the items one after the other, for every
    country of the list each file of the folder, each inside its own [try]. *)
Theorem all_runner_tries_every_item data_raw south_coast coast_files (s : S) :
  snd (runner data_raw south_coast coast_files s) = Ok tt /\
  runner data_raw south_coast coast_files s
  = for_each (concat (map (fun coast => map (pair coast) coast_files) south_coast))
      (fun it => try_except_pass (item data_raw (fst it) (snd it))) s.
Proof.
  assert (forall coast s',
            for_each coast_files
              (fun file => try_except_pass (item data_raw coast file)) s'
            = for_each (map (pair coast) coast_files)
                (fun it => try_except_pass (item data_raw (fst it) (snd it))) s') as Hrow.
  { intros coast. induction coast_files as [|file files IH]; intros s'; simpl; [done|].
    unfold bind. destruct (try_except_pass _ s') as [s1 [[]|e]]; [apply IH|done]. }
  assert (forall s',
            runner data_raw south_coast coast_files s'
            = for_each (concat (map (fun coast => map (pair coast) coast_files) south_coast))
                (fun it => try_except_pass (item data_raw (fst it) (snd it))) s') as Heq.
  { unfold all_runner. induction south_coast as [|coast coasts IH]; intros s'; simpl; [done|].
    rewrite for_each_app. unfold bind. rewrite Hrow.
    destruct (for_each (map (pair coast) coast_files) _ s') as [s1 [[]|e]]; [apply IH|done]. }
  split; [|apply Heq].
  rewrite Heq.
  apply (for_each_try_never_raises _ (fun it => item data_raw (fst it) (snd it))).
Qed.

(** X17. Inside an item the four steps run in a row with one [try] around
    them: when the clipping step raises, the vectorizing and the two
    intersection steps of that item are not run, the item ends normally,
    and the disk is as the failed step left it. *)
Theorem run_item_stops_at_failed_clip data_raw coast file e (s : S) :
  snd (coast_process_flood_tiff (path_join data_raw "countries.csv") coast
         (path_join_all [data_raw; "coastal_hazard"; file]) s) = Raise e ->
  try_except_pass (item data_raw coast file) s
  = (fst (coast_process_flood_tiff (path_join data_raw "countries.csv") coast
            (path_join_all [data_raw; "coastal_hazard"; file]) s), Ok tt).
Proof.
  intros Hclip. unfold try_except_pass, run_item, bind.
  destruct (coast_process_flood_tiff _ coast _ s) as [s1 r]. simpl in Hclip. by subst.
Qed.

End RunnerRuns.

Section RunnerExamples.

Lemma run_item_stops_at_failed_clip_witness :
  try_except_pass
    (run_item Site.clip_or_fail (Site.logged "vectorize") (Site.logged "pop")
       (Site.logged "coverage") "data/raw" "KEN" "bad.tif") []
  = ([], Ok tt) /\
  fst (all_runner Site.clip_or_fail (Site.logged "vectorize") (Site.logged "pop")
         (Site.logged "coverage") "data/raw" ["KEN"] ["bad.tif"; "rp100.tif"] [])
  = ["clip data/raw/countries.csv KEN data/raw/coastal_hazard/rp100.tif";
     "vectorize data/raw/countries.csv KEN data/raw/coastal_hazard/rp100.tif";
     "pop KEN GSM rp100.tif"; "coverage KEN GSM rp100.tif"].
Proof.
  split; [|by vm_compute].
  apply (run_item_stops_at_failed_clip Site.clip_or_fail (Site.logged "vectorize")
           (Site.logged "pop") (Site.logged "coverage") "data/raw" "KEN" "bad.tif"
           (Exn "ValueError" "Input shapes do not overlap raster.") []).
  by vm_compute.
Defined.

End RunnerExamples.
